(** * The tactical board of [app/engine/grid.py]

    A shallow embedding of the [Grid] class: the 9 x 5 occupancy table
    ([self.array]), the tile collection ([self.tiles]), the occupants'
    own [x], [y] and [move] attributes (kept in an object store, because
    the grid holds references to objects that it mutates), and the global
    random source read by [enemy_spawn_location].

    Python integers are [Z].  A method of the class is a computation in a
    state-and-exception monad over the world: it either returns a value
    or raises, and in both cases leaves a world behind. *)

From Stdlib Require Import ZArith Lia.
From stdpp Require Import base option list list_numbers functions sorting.

Local Open Scope Z_scope.

(** ** Objects and the world *)

(** Modelled from the spec: the class [GameObject] lives in
    [app.objects], outside this file.  The spec has the table hold
    references and [locate] look for the cell "whose stored reference
    equals the given occupant": an object is its reference, and [!=] on
    objects is difference of references. *)
Definition ref := nat.

(** Modelled from the spec: the attributes of a [GameObject] that the
    grid reads or writes, the mutable integers [x] and [y], and [move],
    the non-negative budget that the [Ninja] subclass adds and that only
    [can_move_to_tile] reads. *)
Module GameObject.
Record t := make { x : Z; y : Z; move : Z }.
End GameObject.

Record World := mkWorld {
  array : list (list (option ref));   (* self.array *)
  tiles : list ref;                   (* self.tiles *)
  heap : ref -> GameObject.t;         (* the attributes of every object *)
  fresh : ref;                        (* the next reference to allocate *)
  entropy : nat -> nat;               (* the raw draws of the random source *)
  drawn : nat                         (* how many of them were consumed *)
}.

Definition set_array (a : list (list (option ref))) (w : World) : World :=
  mkWorld a (tiles w) (heap w) (fresh w) (entropy w) (drawn w).

Definition set_tiles (ts : list ref) (w : World) : World :=
  mkWorld (array w) ts (heap w) (fresh w) (entropy w) (drawn w).

Definition set_heap (h : ref -> GameObject.t) (w : World) : World :=
  mkWorld (array w) (tiles w) h (fresh w) (entropy w) (drawn w).

Definition set_fresh (r : ref) (w : World) : World :=
  mkWorld (array w) (tiles w) (heap w) r (entropy w) (drawn w).

Definition set_drawn (n : nat) (w : World) : World :=
  mkWorld (array w) (tiles w) (heap w) (fresh w) (entropy w) n.

(** ** The monad of methods *)

Inductive exn := IndexError.

Inductive result (A : Type) :=
| Ret (a : A) (w : World)
| Raise (e : exn) (w : World).
Arguments Ret {A} a w.
Arguments Raise {A} e w.

Definition M (A : Type) := World -> result A.

Definition ret {A} (a : A) : M A := fun w => Ret a w.
Definition raise {A} (e : exn) : M A := fun w => Raise e w.
Definition bind {A B} (m : M A) (k : A -> M B) : M B :=
  fun w => match m w with
           | Ret a w' => k a w'
           | Raise e w' => Raise e w'
           end.
Definition gets {A} (f : World -> A) : M A := fun w => Ret (f w) w.
Definition modify (f : World -> World) : M unit := fun w => Ret tt (f w).

Notation "'let*' x ':=' m 'in' k" := (bind m (fun x => k))
  (at level 10, x pattern, m at level 100, k at level 200).
Notation "m ';;' k" := (bind m (fun _ => k))
  (at level 100, k at level 200, right associativity).

(** The value a computation returned, if it returned. *)
Definition returned {A} (r : result A) : option A :=
  match r with Ret a _ => Some a | Raise _ _ => None end.

(** The world a computation leaves behind, returned or raised. *)
Definition world_of {A} (r : result A) : World :=
  match r with Ret _ w => w | Raise _ w => w end.

(** ** Python built-ins *)

(** [range(a, b)] as the list of the integers it iterates over. *)
Definition range (a b : Z) : list Z := seqZ a (b - a).

(** [x in range(n)] for an integer [x]. *)
Definition in_range (n x : Z) : bool := (0 <=? x) && (x <? n).

(** The position that index [i] designates in a list of length [len]:
    a negative index counts from the end, and an index outside
    [-len, len) designates nothing. *)
Definition py_index (len : nat) (i : Z) : option nat :=
  if (0 <=? i) && (i <? Z.of_nat len) then Some (Z.to_nat i)
  else if (- Z.of_nat len <=? i) && (i <? 0) then Some (Z.to_nat (Z.of_nat len + i))
  else None.

(** The position of [l[i]], or [IndexError]. *)
Definition position {A} (l : list A) (i : Z) : M nat :=
  match py_index (length l) i with
  | Some k => ret k
  | None => raise IndexError
  end.

(** The element at a position already checked. *)
Definition element {A} (l : list A) (k : nat) : M A :=
  match l !! k with
  | Some a => ret a
  | None => raise IndexError
  end.

(** [random.choice(seq)]: the element of [seq] at a random position
    below its length; an empty [seq] raises [IndexError]. *)
Definition random_choice (seq : list Z) : M Z :=
  let* r := gets (fun w => entropy w (drawn w)) in
  match seq !! (r mod length seq)%nat with
  | Some v => modify (fun w => set_drawn (S (drawn w)) w);; ret v
  | None => raise IndexError
  end.

(** [for a in l: body a] where the body may leave the enclosing method
    with [return v] ([Some v]) or go on to the next item ([None]). *)
Fixpoint for_return {A B} (l : list A) (body : A -> M (option B)) : M (option B) :=
  match l with
  | [] => ret None
  | a :: l' =>
      let* r := body a in
      match r with
      | Some v => ret (Some v)
      | None => for_return l' body
      end
  end.

(** [for a in l: body a] inside a generator: the values yielded, in
    order. *)
Fixpoint for_yield {A B} (l : list A) (body : A -> M (list B)) : M (list B) :=
  match l with
  | [] => ret []
  | a :: l' =>
      let* ys := body a in
      let* zs := for_yield l' body in
      ret (ys ++ zs)
  end.

(** [for a in l: body a] for its effect only. *)
Fixpoint for_each {A} (l : list A) (body : A -> M unit) : M unit :=
  match l with
  | [] => ret tt
  | a :: l' => body a;; for_each l' body
  end.

(** The exception of an attribute access on [None]. *)
Inductive attribute_exn := AttributeError.

(** [for a in l: body a] inside a generator whose body may fail on an
    attribute: the values yielded, in order, up to the failure that ended
    the generator, if one did.  What was yielded before the failure has
    reached the consumer already. *)
Fixpoint for_yield_until {A B} (l : list A)
    (body : A -> M (list B * option attribute_exn)) : M (list B * option attribute_exn) :=
  match l with
  | [] => ret ([], None)
  | a :: l' =>
      let* r := body a in
      match r.2 with
      | Some e => ret r
      | None =>
          let* r' := for_yield_until l' body in
          ret (r.1 ++ r'.1, r'.2)
      end
  end.

(** Modelled from the spec: the constructor of [GameObject] lives in
    [app.objects], outside this file; all that is used of it is that
    [GameObject(game, name, x, y, ...)] is a new object whose [x] and [y]
    attributes are the given ones.  The world counts the objects made:
    the references below [fresh] are those of the objects that exist, and
    the new object takes the next one. *)
Definition new_GameObject (x y : Z) : M ref :=
  let* r := gets fresh in
  modify (fun w => set_fresh (S r) (set_heap (<[r := GameObject.make x y 0]> (heap w)) w));;
  ret r.

(** ** The class [Grid] *)

Module Grid.

(** [self.enemy_spawns = [range(6, 9), range(5)]] *)
Definition enemy_spawns : list Z * list Z := (range 6 9, range 0 5).

(** [__init__]: nine fresh rows of five empty cells, and no tile. *)
Definition __init__ (w : World) : World :=
  set_tiles [] (set_array (replicate 9 (replicate 5 None)) w).

Definition is_valid (x y : Z) : bool := in_range 9 x && in_range 5 y.

Definition __getitem__ (index : Z * Z) : M (option ref) :=
  if is_valid index.1 index.2 then
    let* a := gets array in
    let* i := position a index.1 in
    let* row := element a i in
    let* j := position row index.2 in
    element row j
  else ret None.

(** [value.x, value.y = x, y] *)
Definition set_xy (value : ref) (x y : Z) (w : World) : World :=
  set_heap (<[value := GameObject.make x y (GameObject.move (heap w value))]> (heap w)) w.

Definition __setitem__ (index : Z * Z) (value : option ref) : M unit :=
  let* a := gets array in
  let* i := position a index.1 in
  let* row := element a i in
  let* j := position row index.2 in
  modify (set_array (<[i := <[j := value]> row]> a));;
  match value with
  | Some o => modify (set_xy o index.1 index.2)
  | None => ret tt
  end.

Definition add (obj : ref) : M unit :=
  let* x := gets (fun w => GameObject.x (heap w obj)) in
  let* y := gets (fun w => GameObject.y (heap w obj)) in
  __setitem__ (x, y) (Some obj).

Definition coordinates (obj : ref) : M (Z * Z) :=
  let* found :=
    for_return (range 0 9) (fun x =>
      for_return (range 0 5) (fun y =>
        let* c := __getitem__ (x, y) in
        if bool_decide (c ≠ Some obj) then ret None
        else ret (Some (x, y)))) in
  match found with
  | Some p => ret p
  | None => ret (-1, -1)
  end.

Definition remove (obj : ref) : M unit :=
  let* p := coordinates obj in
  __setitem__ (p.1, p.2) None.

Definition move (obj : ref) (x y : Z) : M unit :=
  remove obj;;
  __setitem__ (x, y) (Some obj).

Definition can_move (x y : Z) : M bool :=
  if negb (in_range 9 x) || negb (in_range 5 y) then ret false
  else
    let* c := __getitem__ (x, y) in
    ret (bool_decide (c = None)).

(** The two draws of one attempt of [enemy_spawn_location]. *)
Definition draw : M (Z * Z) :=
  let* x := random_choice enemy_spawns.1 in
  let* y := random_choice enemy_spawns.2 in
  ret (x, y).

Definition enemy_spawn_location (max_attempts : Z) : M (Z * Z) :=
  let* found :=
    for_return (range 0 max_attempts) (fun _ =>
      let* p := draw in
      let* free := can_move p.1 p.2 in
      if free then ret (Some p) else ret None) in
  match found with
  | Some p => ret p
  | None => ret (-1, -1)
  end.

Definition can_move_to_tile (ninja : ref) (x y : Z) : M bool :=
  if negb (in_range 9 x) || negb (in_range 5 y) then ret false
  else
    let* free := can_move x y in
    if negb free then ret false
    else
      let* nx := gets (fun w => GameObject.x (heap w ninja)) in
      let* ny := gets (fun w => GameObject.y (heap w ninja)) in
      let distance := Z.abs (x - nx) + Z.abs (y - ny) in
      let* budget := gets (fun w => GameObject.move (heap w ninja)) in
      ret (distance <=? budget).

Definition get_tile (x y : Z) : M (option ref) :=
  gets (fun w =>
    find (fun tile => bool_decide (GameObject.x (heap w tile) = x)
                      && bool_decide (GameObject.y (heap w tile) = y))
         (tiles w)).

Definition surrounding_tiles (center_x center_y distance : Z) : M (list (option ref)) :=
  let x_range := range (center_x - distance) (center_x + distance + 1) in
  let y_range := range (center_y - distance) (center_y + distance + 1) in
  for_yield x_range (fun x =>
    for_yield y_range (fun y =>
      if negb (is_valid x y) then ret []
      else if bool_decide (x = center_x) && bool_decide (y = center_y) then ret []
      else
        let* tile := get_tile x y in
        ret [tile])).

(** [surrounding_objects]: the tiles of [surrounding_tiles], taken one
    by one; [tile.x] fails when the tile is [None].  The tiles are looked
    up before the cells are read here, where the generators interleave
    them: looking a tile up has no effect, so the order does not show. *)
Definition surrounding_objects (x y distance : Z) : M (list ref * option attribute_exn) :=
  let* tiles := surrounding_tiles x y distance in
  for_yield_until tiles (fun tile =>
    match tile with
    | None => ret ([], Some AttributeError)
    | Some t =>
        let* tx := gets (fun w => GameObject.x (heap w t)) in
        let* ty := gets (fun w => GameObject.y (heap w t)) in
        let* object := __getitem__ (tx, ty) in
        match object with
        | Some o => ret ([o], None)
        | None => ret ([], None)
        end
    end).

(** [initialize_tiles], without the tile frame, the assets and the
    sprites, which are presentation: one new tile per coordinate,
    appended to [self.tiles]. *)
Definition initialize_tiles : M unit :=
  for_each (range 0 9) (fun x =>
    for_each (range 0 5) (fun y =>
      let* tile := new_GameObject x y in
      modify (fun w => set_tiles (tiles w ++ [tile]) w))).

End Grid.

(** ** Reachable worlds and the properties stated of them *)

(** The shape that [__init__] gives the table and that every write keeps. *)
Definition well_formed (w : World) : Prop :=
  length (array w) = 9%nat ∧ Forall (fun row => length row = 5%nat) (array w).

(** The table read as a function, for the proofs: what [__getitem__]
    returns on a well-formed world (lemma [getitem_cell]). *)
Definition cell (w : World) (x y : Z) : option ref :=
  if Grid.is_valid x y then
    match array w !! Z.to_nat x with
    | Some row => default None (row !! Z.to_nat y)
    | None => None
    end
  else None.

(** [at(x, y)] returns [c], and leaves the world as it was. *)
Definition reads (w : World) (p : Z * Z) (c : option ref) : Prop :=
  Grid.__getitem__ p w = Ret c w.

(** The table itself holds [c] in row [x], column [y]: what
    [self.array[x][y]] is, for indices that are not negative. *)
Definition stored (w : World) (x y : Z) (c : option ref) : Prop :=
  0 ≤ x ∧ 0 ≤ y
  ∧ ∃ row, array w !! Z.to_nat x = Some row ∧ row !! Z.to_nat y = Some c.

(** An occupant is stored in at most one cell. *)
Definition at_most_one_cell (w : World) : Prop :=
  ∀ o p q, reads w p (Some o) → reads w q (Some o) → p = q.

(** The mutations of the board, and the worlds they lead to from a new
    grid, whether they return or raise. *)
Inductive mutation :=
| Set_item (x y : Z) (value : option ref)
| Add (obj : ref)
| Remove (obj : ref)
| Move (obj : ref) (x y : Z).

Definition run (m : mutation) : M unit :=
  match m with
  | Set_item x y value => Grid.__setitem__ (x, y) value
  | Add obj => Grid.add obj
  | Remove obj => Grid.remove obj
  | Move obj x y => Grid.move obj x y
  end.

Inductive reachable : World → Prop :=
| reachable_init w : reachable (Grid.__init__ w)
| reachable_step w m : reachable w → reachable (world_of (run m w)).

(** Row-major order on coordinates: [x] first, then [y]. *)
Definition row_major (p q : Z * Z) : Prop :=
  p.1 < q.1 ∨ (p.1 = q.1 ∧ p.2 < q.2).

(** The first value that [f] finds along [l]. *)
Fixpoint first_some {A B} (f : A → option B) (l : list A) : option B :=
  match l with
  | [] => None
  | a :: l' => match f a with Some v => Some v | None => first_some f l' end
  end.

(** The coordinate of the cell that index [i] designates along an axis
    of length [n], for [-n <= i < n]. *)
Definition designated (n i : Z) : Z := if i <? 0 then n + i else i.

(** The candidate of attempt [k] (counting from 0) of a spawn search
    started in [w]: what [draw] returns once the [k] attempts before it
    have consumed two raw draws each. *)
Definition nth_draw (w : World) (k : nat) : Z * Z :=
  match Grid.draw (set_drawn (drawn w + 2 * k) w) with
  | Ret p _ => p
  | Raise _ _ => (-1, -1)
  end.

(** The coordinate that a tile reports. *)
Definition position_of (w : World) (tile : ref) : Z * Z :=
  (GameObject.x (heap w tile), GameObject.y (heap w tile)).

(** Every coordinate of the board has its tile, as after
    [initialize_tiles]. *)
Definition tiles_cover (w : World) : Prop :=
  ∀ x y, Grid.is_valid x y = true → ∃ tile, Grid.get_tile x y w = Ret (Some tile) w.



(** The coordinates at which the loops of [surrounding_tiles] reach
    their [yield], in the order of the loops. *)
Definition ring (center_x center_y distance : Z) : list (Z * Z) :=
  x ← range (center_x - distance) (center_x + distance + 1);
  y ← range (center_y - distance) (center_y + distance + 1);
  if negb (Grid.is_valid x y) then []
  else if bool_decide (x = center_x) && bool_decide (y = center_y) then []
  else [(x, y)].

(** ** Worlds to run the methods on *)

Module Example.

(** A new grid in a world where the objects 0 to 99 exist already (the
    occupants of the boards below are among them, and new objects start
    at 100); every object reports [(0, 0)] and has a budget of 2; the
    random source counts up from 0. *)
Definition blank : World :=
  Grid.__init__ (mkWorld [] [] (fun _ => GameObject.make 0 0 2) 100%nat (fun n => n) 0%nat).

(** Occupant 1 placed at [(0, 0)]. *)
Definition one_placed : World := world_of (Grid.add 1%nat blank).

(** Occupant 2 placed at [(8, 4)], occupant 1 nowhere. *)
Definition corner_taken : World :=
  world_of (Grid.__setitem__ (8, 4) (Some 2%nat) blank).

(** Occupant 1 placed at [(0, 0)] and then stored at [(1, 1)] too. *)
Definition stored_twice : World :=
  world_of (Grid.__setitem__ (1, 1) (Some 1%nat) one_placed).


(** The grid after [initialize_tiles]. *)
Definition tiled : World := world_of (Grid.initialize_tiles blank).

(** Occupant 1 at [(0, 0)] and occupant 2 at [(2, 0)]. *)
Definition two_placed : World :=
  world_of (Grid.__setitem__ (2, 0) (Some 2%nat) one_placed).

(** The grid with its tiles, occupant 50 at [(3, 2)] and occupant 51 at
    [(4, 2)]. *)
Definition tiled_two_placed : World :=
  world_of (Grid.__setitem__ (4, 2) (Some 51%nat)
    (world_of (Grid.__setitem__ (3, 2) (Some 50%nat) tiled))).

End Example.

(** ** Indexing and the loops *)

Lemma in_range_spec n x : in_range n x = true ↔ 0 ≤ x < n.
Proof. unfold in_range. rewrite andb_true_iff, Z.leb_le, Z.ltb_lt. tauto. Qed.

Lemma is_valid_spec x y : Grid.is_valid x y = true ↔ 0 ≤ x ≤ 8 ∧ 0 ≤ y ≤ 4.
Proof. unfold Grid.is_valid. rewrite andb_true_iff, !in_range_spec. lia. Qed.

Lemma is_valid_false x y : Grid.is_valid x y = false ↔ x < 0 ∨ x > 8 ∨ y < 0 ∨ y > 4.
Proof.
  rewrite <- not_true_iff_false, is_valid_spec. lia.
Qed.

Lemma py_index_nonneg len i :
  0 ≤ i < Z.of_nat len → py_index len i = Some (Z.to_nat i).
Proof.
  intros H. unfold py_index.
  destruct (Z.leb_spec 0 i), (Z.ltb_spec i (Z.of_nat len)); simpl; try lia; done.
Qed.

Lemma py_index_negative len i :
  - Z.of_nat len ≤ i < 0 → py_index len i = Some (Z.to_nat (Z.of_nat len + i)).
Proof.
  intros H. unfold py_index.
  destruct (Z.leb_spec 0 i); simpl; [lia|].
  destruct (Z.leb_spec (- Z.of_nat len) i), (Z.ltb_spec i 0); simpl; try lia; done.
Qed.

Lemma py_index_outside len i :
  i < - Z.of_nat len ∨ Z.of_nat len ≤ i → py_index len i = None.
Proof.
  intros H. unfold py_index.
  destruct (Z.leb_spec 0 i), (Z.ltb_spec i (Z.of_nat len)); simpl; try lia;
    destruct (Z.leb_spec (- Z.of_nat len) i), (Z.ltb_spec i 0); simpl; try lia; done.
Qed.

Lemma py_index_lt len i k : py_index len i = Some k → (k < len)%nat.
Proof.
  unfold py_index.
  destruct (Z.leb_spec 0 i), (Z.ltb_spec i (Z.of_nat len)); simpl;
    try (intros [= <-]; lia);
    destruct (Z.leb_spec (- Z.of_nat len) i), (Z.ltb_spec i 0); simpl;
    try (intros [= <-]; lia); done.
Qed.

Lemma py_index_cases len i :
  (0 ≤ i < Z.of_nat len ∧ py_index len i = Some (Z.to_nat i))
  ∨ (- Z.of_nat len ≤ i < 0 ∧ py_index len i = Some (Z.to_nat (Z.of_nat len + i)))
  ∨ ((i < - Z.of_nat len ∨ Z.of_nat len ≤ i) ∧ py_index len i = None).
Proof.
  destruct (Z_lt_le_dec i (- Z.of_nat len)).
  { right; right. split; [lia|]. apply py_index_outside; lia. }
  destruct (Z_lt_le_dec i 0).
  { right; left. split; [lia|]. apply py_index_negative; lia. }
  destruct (Z_lt_le_dec i (Z.of_nat len)).
  { left. split; [lia|]. apply py_index_nonneg; lia. }
  right; right. split; [lia|]. apply py_index_outside; lia.
Qed.

Lemma well_formed_row w i :
  well_formed w → (i < 9)%nat → ∃ row, array w !! i = Some row ∧ length row = 5%nat.
Proof.
  intros [Hlen Hrows] Hi.
  destruct (lookup_lt_is_Some_2 (array w) i) as [row Hrow]; [lia|].
  exists row. split; [done|].
  exact (Forall_lookup_1 _ _ _ _ Hrows Hrow).
Qed.

Lemma row_cell (row : list (option ref)) j :
  length row = 5%nat → (j < 5)%nat → row !! j = Some (default None (row !! j)).
Proof.
  intros Hlen Hj.
  destruct (lookup_lt_is_Some_2 row j) as [c Hc]; [lia|]. by rewrite Hc.
Qed.

Lemma cell_invalid w x y : Grid.is_valid x y = false → cell w x y = None.
Proof. intros H. unfold cell. by rewrite H. Qed.

Lemma cell_Some_valid w x y o : cell w x y = Some o → Grid.is_valid x y = true.
Proof. unfold cell. by destruct (Grid.is_valid x y). Qed.

(** On a well-formed world a read returns the cell and changes nothing. *)
Lemma getitem_cell w x y :
  well_formed w → Grid.__getitem__ (x, y) w = Ret (cell w x y) w.
Proof.
  intros Hwf. unfold Grid.__getitem__, cell. simpl.
  destruct (Grid.is_valid x y) eqn:Hv; [|done].
  apply is_valid_spec in Hv.
  destruct (well_formed_row w (Z.to_nat x) Hwf) as (row & Hrow & Hlen); [lia|].
  destruct Hwf as [Ha _].
  unfold bind, gets, position, element.
  rewrite py_index_nonneg by lia. unfold ret at 1. rewrite Hrow. unfold ret at 1.
  rewrite py_index_nonneg by lia. unfold ret at 1.
  rewrite (row_cell row (Z.to_nat y)) by lia. done.
Qed.

Lemma reads_cell w p c : well_formed w → reads w p c ↔ cell w p.1 p.2 = c.
Proof.
  intros Hwf. destruct p as [x y]. unfold reads. rewrite getitem_cell by done.
  simpl. split; [by intros [= ->]|by intros ->].
Qed.

Lemma stored_valid w x y c :
  well_formed w → stored w x y c → Grid.is_valid x y = true.
Proof.
  intros [Hlen Hrows] (Hx & Hy & row & Hrow & Hc).
  pose proof (lookup_lt_Some _ _ _ Hrow) as Hi.
  pose proof (lookup_lt_Some _ _ _ Hc) as Hj.
  rewrite (Forall_lookup_1 _ _ _ _ Hrows Hrow) in Hj.
  apply is_valid_spec. lia.
Qed.

(** On a well-formed world the cells are what the table holds. *)
Lemma stored_cell w x y c :
  well_formed w → stored w x y c ↔ Grid.is_valid x y = true ∧ cell w x y = c.
Proof.
  intros Hwf. split.
  - intros Hst. pose proof (stored_valid w x y c Hwf Hst) as Hv.
    split; [done|]. destruct Hst as (_ & _ & row & Hrow & Hc).
    unfold cell. by rewrite Hv, Hrow, Hc.
  - intros [Hv <-]. pose proof Hv as Hv'. apply is_valid_spec in Hv'.
    destruct (well_formed_row w (Z.to_nat x) Hwf) as (row & Hrow & Hlen); [lia|].
    split_and!; [lia..|]. exists row. split; [done|].
    unfold cell. rewrite Hv, Hrow. apply row_cell; lia.
Qed.

Lemma stored_Some_cell w x y o :
  well_formed w → stored w x y (Some o) ↔ cell w x y = Some o.
Proof.
  intros Hwf. rewrite stored_cell by done. split; [by intros [_ ?]|].
  intros Hc. split; [by apply (cell_Some_valid w x y o)|done].
Qed.

(** A loop whose body only reads returns what [first_some] finds. *)
Lemma for_return_pure {A B} (l : list A) (body : A → M (option B)) f w :
  (∀ a, a ∈ l → body a w = Ret (f a) w) →
  for_return l body w = Ret (first_some f l) w.
Proof.
  induction l as [|a l IH]; intros Hbody; simpl; [done|].
  unfold bind. rewrite Hbody by apply list_elem_of_here.
  destruct (f a); [done|]. apply IH. intros b Hb. apply Hbody. by apply list_elem_of_further.
Qed.

(** A generator loop whose bodies only read yields, in order, what the
    bodies yield. *)
Lemma for_yield_map {A B C} (l : list A) (body : A → M (list C))
    (f : A → list B) (g : B → C) w :
  (∀ a, a ∈ l → body a w = Ret (g <$> f a) w) →
  for_yield l body w = Ret (g <$> (l ≫= f)) w.
Proof.
  induction l as [|a l IH]; intros Hbody; [reflexivity|].
  rewrite bind_cons, fmap_app. cbn [for_yield].
  unfold bind. rewrite Hbody by apply list_elem_of_here.
  rewrite IH; [done|].
  intros b Hb. apply Hbody. by apply list_elem_of_further.
Qed.

Lemma first_some_None {A B} (f : A → option B) l :
  first_some f l = None ↔ ∀ a, a ∈ l → f a = None.
Proof.
  induction l as [|a l IH]; simpl.
  - split; [|done]. intros _ a Ha. by apply elem_of_nil in Ha.
  - destruct (f a) eqn:Hfa.
    + split; [done|]. intros H. specialize (H a (list_elem_of_here _ _)). congruence.
    + rewrite IH. split.
      * intros H b Hb. apply elem_of_cons in Hb as [->|Hb]; auto.
      * intros H b Hb. apply H. by apply list_elem_of_further.
Qed.

Lemma first_some_Some {A B} (f : A → option B) l v :
  first_some f l = Some v →
  ∃ l1 a l2, l = l1 ++ a :: l2 ∧ f a = Some v ∧ ∀ b, b ∈ l1 → f b = None.
Proof.
  induction l as [|a l IH]; simpl; [done|].
  destruct (f a) eqn:Hfa.
  - intros [= ->]. exists [], a, l. split_and!; [done..|].
    intros b Hb. by apply elem_of_nil in Hb.
  - intros H. destruct (IH H) as (l1 & b & l2 & -> & Hb & Hl1).
    exists (a :: l1), b, l2. split_and!; [done..|].
    intros c Hc. apply elem_of_cons in Hc as [->|Hc]; auto.
Qed.

(** In [range a b] what comes before an item is smaller than it. *)
Lemma range_split a b l1 k l2 :
  range a b = l1 ++ k :: l2 → a ≤ k < b ∧ ∀ j, a ≤ j < k → j ∈ l1.
Proof.
  unfold range. intros H.
  assert (Hk : seqZ a (b - a) !! length l1 = Some k).
  { rewrite H. by rewrite list_lookup_middle. }
  apply lookup_seqZ in Hk as [-> Hlt]. split; [lia|].
  intros j Hj.
  assert (Hj' : seqZ a (b - a) !! Z.to_nat (j - a) = Some j).
  { apply lookup_seqZ. lia. }
  rewrite H in Hj'. rewrite lookup_app_l in Hj' by lia.
  by eapply list_elem_of_lookup_2.
Qed.

Lemma elem_of_range a b k : k ∈ range a b ↔ a ≤ k < b.
Proof. unfold range. rewrite elem_of_seqZ. lia. Qed.

(** ** Writes *)

(** A write whose two indices designate positions returns, keeps the
    shape of the table, changes the designated cell only, and touches the
    attributes of the stored occupant only. *)
Lemma setitem_returns w x y v i j :
  well_formed w → py_index 9 x = Some i → py_index 5 y = Some j →
  ∃ w', Grid.__setitem__ (x, y) v w = Ret tt w'
    ∧ well_formed w'
    ∧ (∀ a b, cell w' a b =
              if bool_decide (Grid.is_valid a b = true ∧ Z.to_nat a = i ∧ Z.to_nat b = j)
              then v else cell w a b)
    ∧ tiles w' = tiles w
    ∧ heap w' = match v with
                | Some o => <[o := GameObject.make x y (GameObject.move (heap w o))]> (heap w)
                | None => heap w
                end
    ∧ fresh w' = fresh w ∧ entropy w' = entropy w ∧ drawn w' = drawn w.
Proof.
  intros Hwf Hi Hj.
  pose proof (py_index_lt _ _ _ Hi) as Hi9. pose proof (py_index_lt _ _ _ Hj) as Hj5.
  destruct (well_formed_row w i Hwf Hi9) as (row & Hrow & Hlen).
  destruct Hwf as [Ha Hrows].
  exists (world_of (Grid.__setitem__ (x, y) v w)).
  assert (Hrun : Grid.__setitem__ (x, y) v w =
    Ret tt (match v with
            | Some o => Grid.set_xy o x y (set_array (<[i := <[j := v]> row]> (array w)) w)
            | None => set_array (<[i := <[j := v]> row]> (array w)) w
            end)).
  { unfold Grid.__setitem__, bind, gets, position, element. simpl.
    rewrite Ha, Hi. unfold ret at 1. rewrite Hrow. unfold ret at 1.
    rewrite Hlen, Hj. unfold ret at 1, modify at 1. by destruct v. }
  rewrite Hrun. simpl.
  assert (Harr : array (match v with
            | Some o => Grid.set_xy o x y (set_array (<[i := <[j := v]> row]> (array w)) w)
            | None => set_array (<[i := <[j := v]> row]> (array w)) w
            end) = <[i := <[j := v]> row]> (array w)) by by destruct v.
  split; [by destruct v|]. split.
  { unfold well_formed. rewrite Harr, length_insert. split; [done|].
    apply Forall_insert; [done|]. by rewrite length_insert. }
  split.
  { intros a b. unfold cell. rewrite Harr.
    destruct (Grid.is_valid a b) eqn:Hv.
    - destruct (decide (Z.to_nat a = i)) as [->|Hne].
      + rewrite list_lookup_insert_eq by lia. rewrite Hrow.
        destruct (decide (Z.to_nat b = j)) as [->|Hne].
        * rewrite bool_decide_eq_true_2 by done.
          by rewrite list_lookup_insert_eq by lia.
        * rewrite bool_decide_eq_false_2 by tauto.
          by rewrite list_lookup_insert_ne by done.
      + rewrite bool_decide_eq_false_2 by tauto.
        by rewrite list_lookup_insert_ne by done.
    - rewrite bool_decide_eq_false_2; [done|]. intros [? _]. congruence. }
  by destruct v.
Qed.

(** A write one of whose indices designates nothing raises [IndexError]
    and changes nothing. *)
Lemma setitem_raises w x y v :
  well_formed w → py_index 9 x = None ∨ py_index 5 y = None →
  Grid.__setitem__ (x, y) v w = Raise IndexError w.
Proof.
  intros Hwf Hout. pose proof Hwf as [Ha _].
  unfold Grid.__setitem__, bind, gets, position, element. simpl. rewrite Ha.
  destruct (py_index 9 x) as [i|] eqn:Hi; [|done].
  destruct Hout as [?|Hj]; [done|].
  destruct (well_formed_row w i Hwf (py_index_lt _ _ _ Hi)) as (row & Hrow & Hlen).
  unfold ret at 1. rewrite Hrow. unfold ret at 1. by rewrite Hlen, Hj.
Qed.

(** ** Locating an occupant *)

Lemma coordinates_run w o :
  well_formed w →
  Grid.coordinates o w =
    Ret (match first_some (fun x => first_some (fun y =>
                 if bool_decide (cell w x y ≠ Some o) then None else Some (x, y))
               (range 0 5)) (range 0 9) with
         | Some p => p
         | None => (-1, -1)
         end) w.
Proof.
  intros Hwf. unfold Grid.coordinates, bind.
  rewrite (for_return_pure _ _ (fun x => first_some (fun y =>
    if bool_decide (cell w x y ≠ Some o) then None else Some (x, y)) (range 0 5))).
  - by destruct (first_some _ _).
  - intros x _. apply for_return_pure. intros y _.
    unfold bind. rewrite getitem_cell by done.
    by destruct (bool_decide _).
Qed.

(** The answer depends on the table alone. *)
Lemma coordinates_table_only w w2 o p :
  well_formed w → array w2 = array w →
  Grid.coordinates o w = Ret p w → Grid.coordinates o w2 = Ret p w2.
Proof.
  intros Hwf Harr Hrun.
  assert (Hwf2 : well_formed w2) by (unfold well_formed; by rewrite Harr).
  assert (Hcell : cell w2 = cell w) by (unfold cell; by rewrite Harr).
  rewrite coordinates_run in Hrun by done. rewrite coordinates_run by done.
  rewrite Hcell. congruence.
Qed.

Lemma coordinates_spec w o :
  well_formed w →
  ∃ p, Grid.coordinates o w = Ret p w ∧
    ((p = (-1, -1) ∧ ∀ x y, cell w x y ≠ Some o)
     ∨ (cell w p.1 p.2 = Some o ∧ ∀ x y, row_major (x, y) p → cell w x y ≠ Some o)).
Proof.
  intros Hwf.
  set (g := fun x y : Z => if bool_decide (cell w x y ≠ Some o) then None else Some (x, y)).
  pose proof (coordinates_run w o Hwf) as Hrun. fold g in Hrun.
  eexists. split; [exact Hrun|].
  assert (Hg : ∀ x y, g x y = None → cell w x y ≠ Some o).
  { intros x y. unfold g. case_bool_decide; [done|discriminate]. }
  destruct (first_some _ (range 0 9)) as [p|] eqn:Hfound.
  - right.
    apply first_some_Some in Hfound as (l1 & x & l2 & Hx & Hin & Hbefore).
    apply first_some_Some in Hin as (m1 & y & m2 & Hy & Hxy & Hbefore').
    apply range_split in Hx as [Hx Hl1]. apply range_split in Hy as [Hy Hm1].
    unfold g in Hxy. case_bool_decide as Hc; [discriminate|]. injection Hxy as <-.
    simpl. split; [by destruct (decide (cell w x y = Some o))|].
    intros x' y' Hrm. destruct (Grid.is_valid x' y') eqn:Hv.
    + apply is_valid_spec in Hv. apply Hg. unfold row_major in Hrm. cbn [fst snd] in Hrm.
      destruct Hrm as [Hlt|[Heq Hlt]].
      * specialize (Hbefore x' (Hl1 x' ltac:(lia))).
        assert (Hy' : y' ∈ range 0 5) by (apply elem_of_range; lia).
        exact (proj1 (first_some_None _ _) Hbefore y' Hy').
      * subst x'. apply Hbefore', Hm1. lia.
    + by rewrite cell_invalid.
  - left. split; [done|]. intros x y.
    destruct (Grid.is_valid x y) eqn:Hv; [|by rewrite cell_invalid].
    apply is_valid_spec in Hv. apply Hg.
    assert (Hx : x ∈ range 0 9) by (apply elem_of_range; lia).
    assert (Hy : y ∈ range 0 5) by (apply elem_of_range; lia).
    exact (proj1 (first_some_None _ _) (proj1 (first_some_None _ _) Hfound x Hx) y Hy).
Qed.

Lemma well_formed_init w : well_formed (Grid.__init__ w).
Proof. split; [reflexivity|]. simpl. repeat constructor. Qed.

(** ** Reading and writing one cell *)

(** C9: a read at a coordinate with [x < 0], [x > 8], [y < 0] or [y > 4]
    does not fail and returns none, whatever the table holds (no
    assumption is made on the table, which is not consulted). *)
Theorem getitem_out_of_range w x y :
  x < 0 ∨ x > 8 ∨ y < 0 ∨ y > 4 → Grid.__getitem__ (x, y) w = Ret None w.
Proof.
  intros H. apply is_valid_false in H. unfold Grid.__getitem__. simpl. by rewrite H.
Qed.

Lemma getitem_out_of_range_witness :
  Grid.__getitem__ (9, 0) Example.corner_taken = Ret None Example.corner_taken.
Proof. apply (getitem_out_of_range Example.corner_taken 9 0). lia. Defined.

(** C8: after [set(x, y, occupant)] at a valid coordinate, [at(x, y)]
    returns that occupant, and the occupant's own [x] and [y] are the
    coordinate. *)
Theorem setitem_then_getitem w x y o :
  well_formed w → 0 ≤ x ≤ 8 → 0 ≤ y ≤ 4 →
  ∃ w', Grid.__setitem__ (x, y) (Some o) w = Ret tt w'
    ∧ Grid.__getitem__ (x, y) w' = Ret (Some o) w'
    ∧ GameObject.x (heap w' o) = x ∧ GameObject.y (heap w' o) = y.
Proof.
  intros Hwf Hx Hy.
  destruct (setitem_returns w x y (Some o) (Z.to_nat x) (Z.to_nat y) Hwf)
    as (w' & Hrun & Hwf' & Hcell & _ & Hheap & _);
    [apply (py_index_nonneg 9); lia | apply (py_index_nonneg 5); lia |].
  exists w'. split; [done|]. split.
  - rewrite getitem_cell by done. rewrite Hcell.
    rewrite bool_decide_eq_true_2; [done|].
    split; [|done]. apply is_valid_spec. lia.
  - rewrite Hheap, fn_lookup_insert. done.
Qed.

Lemma setitem_then_getitem_witness :
  ∃ w', Grid.__setitem__ (3, 2) (Some 7%nat) Example.blank = Ret tt w'
    ∧ Grid.__getitem__ (3, 2) w' = Ret (Some 7%nat) w'
    ∧ GameObject.x (heap w' 7%nat) = 3 ∧ GameObject.y (heap w' 7%nat) = 2.
Proof.
  apply (setitem_then_getitem Example.blank 3 2 7%nat); [|lia|lia].
  split; [reflexivity|]. simpl. repeat constructor.
Defined.

(** C10: a write at a valid coordinate returns, leaves what every other
    coordinate reads as it was, leaves [self.tiles] as it was, changes
    the attributes of no object other than the one stored, and changes
    no attribute at all when it stores none. *)
Theorem setitem_frame w x y v :
  well_formed w → 0 ≤ x ≤ 8 → 0 ≤ y ≤ 4 →
  ∃ w', Grid.__setitem__ (x, y) v w = Ret tt w'
    ∧ (∀ q c, q ≠ (x, y) → reads w' q c ↔ reads w q c)
    ∧ length (array w') = length (array w)
    ∧ tiles w' = tiles w
    ∧ (∀ r, v ≠ Some r → heap w' r = heap w r)
    ∧ (v = None → heap w' = heap w).
Proof.
  intros Hwf Hx Hy.
  destruct (setitem_returns w x y v (Z.to_nat x) (Z.to_nat y) Hwf)
    as (w' & Hrun & Hwf' & Hcell & Htiles & Hheap & _);
    [apply (py_index_nonneg 9); lia | apply (py_index_nonneg 5); lia |].
  exists w'. split; [done|]. split_and!.
  - intros [a b] c Hne. rewrite !reads_cell by done. simpl. rewrite Hcell.
    rewrite bool_decide_eq_false_2; [done|].
    intros (Hv & Ha & Hb). apply is_valid_spec in Hv. apply Hne. f_equal; lia.
  - destruct Hwf as [-> _], Hwf' as [-> _]. done.
  - done.
  - intros r Hr. rewrite Hheap. destruct v as [o|]; [|done].
    apply fn_lookup_insert_ne. congruence.
  - intros ->. done.
Qed.

Lemma setitem_frame_witness :
  ∃ w', Grid.__setitem__ (8, 4) None Example.corner_taken = Ret tt w'
    ∧ (∀ q c, q ≠ (8, 4) → reads w' q c ↔ reads Example.corner_taken q c)
    ∧ length (array w') = length (array Example.corner_taken)
    ∧ tiles w' = tiles Example.corner_taken
    ∧ (∀ r : ref, None ≠ Some r → heap w' r = heap Example.corner_taken r)
    ∧ (None = (None : option ref) → heap w' = heap Example.corner_taken).
Proof.
  apply (setitem_frame Example.corner_taken 8 4 None); [|lia|lia].
  split; [reflexivity|]. simpl. repeat constructor.
Defined.

(** ** Locating, and gating a movement *)

(** C7: [locate(occupant)] returns without changing anything; unless its
    answer is the sentinel, the answer is a coordinate of the board, the
    table holds the occupant there and holds it at no coordinate before
    it in row-major order; the answer is the sentinel [(-1, -1)] exactly
    when the table holds the occupant nowhere; and the answer is the same
    on every world with the same table, whatever the occupants' own
    attributes are. *)
Theorem coordinates_first_match w o :
  well_formed w →
  ∃ p, Grid.coordinates o w = Ret p w
    ∧ (p ≠ (-1, -1) →
       (0 ≤ p.1 ≤ 8 ∧ 0 ≤ p.2 ≤ 4)
       ∧ stored w p.1 p.2 (Some o)
       ∧ ∀ x y, row_major (x, y) p → ¬ stored w x y (Some o))
    ∧ (p = (-1, -1) ↔ ∀ x y, ¬ stored w x y (Some o))
    ∧ (∀ w2, array w2 = array w → Grid.coordinates o w2 = Ret p w2).
Proof.
  intros Hwf. destruct (coordinates_spec w o Hwf) as (p & Hrun & Hp).
  exists p. split; [done|]. split_and!.
  - intros Hne. destruct Hp as [[-> _]|[Hat Hfirst]]; [done|].
    pose proof (cell_Some_valid _ _ _ _ Hat) as Hv. apply is_valid_spec in Hv.
    split; [done|]. split; [by apply stored_Some_cell|].
    intros x y Hrm. rewrite stored_Some_cell by done. by apply Hfirst.
  - split.
    + intros -> x y. rewrite stored_Some_cell by done.
      destruct Hp as [[_ Hno]|[Hat _]]; [apply Hno|].
      by apply cell_Some_valid in Hat.
    + intros Hno. destruct Hp as [[-> _]|[Hat _]]; [done|].
      destruct (Hno p.1 p.2). by apply stored_Some_cell.
  - intros w2 Harr. by apply (coordinates_table_only w).
Qed.

Lemma coordinates_first_match_witness :
  ∃ p, Grid.coordinates 2%nat Example.corner_taken = Ret p Example.corner_taken
    ∧ (p ≠ (-1, -1) →
       (0 ≤ p.1 ≤ 8 ∧ 0 ≤ p.2 ≤ 4)
       ∧ stored Example.corner_taken p.1 p.2 (Some 2%nat)
       ∧ ∀ x y, row_major (x, y) p → ¬ stored Example.corner_taken x y (Some 2%nat))
    ∧ (p = (-1, -1) ↔ ∀ x y, ¬ stored Example.corner_taken x y (Some 2%nat))
    ∧ (∀ w2, array w2 = array Example.corner_taken →
             Grid.coordinates 2%nat w2 = Ret p w2).
Proof.
  apply (coordinates_first_match Example.corner_taken 2%nat).
  split; [reflexivity|]. simpl. repeat constructor.
Defined.

Lemma can_move_run w x y :
  well_formed w →
  Grid.can_move x y w = Ret (Grid.is_valid x y && bool_decide (cell w x y = None)) w.
Proof.
  intros Hwf. unfold Grid.can_move, Grid.is_valid.
  destruct (in_range 9 x); simpl; [|done].
  destruct (in_range 5 y) eqn:Hy; simpl; [|done].
  unfold bind. rewrite getitem_cell by done. done.
Qed.

(** C4: [canMoveTo(unit, x, y)] returns, changes nothing, and answers
    true exactly when the coordinate is in range, the table holds none
    there, and the Manhattan distance from the unit's own position is at
    most the unit's budget (whatever the sign of the budget). *)
Theorem can_move_to_tile_iff w ninja x y :
  well_formed w →
  ∃ b, Grid.can_move_to_tile ninja x y w = Ret b w
    ∧ (b = true ↔
         (0 ≤ x ≤ 8 ∧ 0 ≤ y ≤ 4)
         ∧ stored w x y None
         ∧ Z.abs (x - GameObject.x (heap w ninja)) + Z.abs (y - GameObject.y (heap w ninja))
           ≤ GameObject.move (heap w ninja)).
Proof.
  intros Hwf.
  assert (Hst : 0 ≤ x ≤ 8 ∧ 0 ≤ y ≤ 4 → stored w x y None ↔ cell w x y = None).
  { intros Hv. rewrite stored_cell by done. rewrite <- is_valid_spec in Hv. tauto. }
  unfold Grid.can_move_to_tile.
  destruct (in_range 9 x && in_range 5 y) eqn:Hv.
  - pose proof Hv as Hv'. apply andb_true_iff in Hv' as [-> ->]. simpl.
    unfold bind. rewrite can_move_run by done.
    unfold Grid.is_valid. rewrite Hv. simpl.
    apply is_valid_spec in Hv. specialize (Hst Hv).
    case_bool_decide as Hc; simpl.
    + eexists. split; [reflexivity|]. rewrite Hst, Z.leb_le. tauto.
    + eexists. split; [reflexivity|]. rewrite Hst. split; [done|tauto].
  - exists false. split.
    + apply andb_false_iff in Hv as [->| ->]; simpl; [done|].
      by destruct (in_range 9 x).
    + split; [done|]. intros (Hin & _). apply is_valid_spec in Hin.
      unfold Grid.is_valid in Hin. congruence.
Qed.

Lemma can_move_to_tile_iff_witness :
  ∃ b, Grid.can_move_to_tile 1%nat 2 0 Example.one_placed = Ret b Example.one_placed
    ∧ (b = true ↔
         (0 ≤ 2 ≤ 8 ∧ 0 ≤ 0 ≤ 4)
         ∧ stored Example.one_placed 2 0 None
         ∧ Z.abs (2 - GameObject.x (heap Example.one_placed 1%nat))
           + Z.abs (0 - GameObject.y (heap Example.one_placed 1%nat))
           ≤ GameObject.move (heap Example.one_placed 1%nat)).
Proof.
  apply (can_move_to_tile_iff Example.one_placed 1%nat 2 0).
  split; [reflexivity|]. simpl. repeat constructor.
Defined.

(** ** Removing *)

(** [remove] clears the cell that [coordinates] answers; when the
    occupant is nowhere the answer is [(-1, -1)], which designates the
    last cell of the last row. *)
Lemma remove_spec w o :
  well_formed w →
  ∃ w' i j, Grid.remove o w = Ret tt w'
    ∧ well_formed w'
    ∧ (∀ a b, cell w' a b =
              if bool_decide (Grid.is_valid a b = true ∧ Z.to_nat a = i ∧ Z.to_nat b = j)
              then None else cell w a b)
    ∧ tiles w' = tiles w ∧ heap w' = heap w
    ∧ ((cell w (Z.of_nat i) (Z.of_nat j) = Some o)
       ∨ ((i, j) = (8%nat, 4%nat) ∧ ∀ x y, cell w x y ≠ Some o)).
Proof.
  intros Hwf. destruct (coordinates_spec w o Hwf) as (p & Hrun & Hp).
  unfold Grid.remove, bind. rewrite Hrun.
  destruct Hp as [[-> Hno]|[Hat _]].
  - destruct (setitem_returns w (-1) (-1) None 8%nat 4%nat Hwf)
      as (w' & Hset & Hwf' & Hcell & Htiles & Hheap & _); [done..|].
    exists w', 8%nat, 4%nat. simpl. split_and!; try done. by right.
  - destruct p as [x y]. simpl in *.
    pose proof (cell_Some_valid _ _ _ _ Hat) as Hv. apply is_valid_spec in Hv.
    destruct (setitem_returns w x y None (Z.to_nat x) (Z.to_nat y) Hwf)
      as (w' & Hset & Hwf' & Hcell & Htiles & Hheap & _);
      [apply (py_index_nonneg 9); lia | apply (py_index_nonneg 5); lia |].
    exists w', (Z.to_nat x), (Z.to_nat y). split_and!; try done.
    left. by rewrite !Z2Nat.id by lia.
Qed.

(** C1, on the code: removing an occupant that no cell holds is not a
    no-op.  Occupant 1 is nowhere on the board and occupant 2 stands at
    [(8, 4)]; [remove] of occupant 1 returns and leaves [(8, 4)] empty. *)
Theorem remove_absent_clears_last_cell :
  well_formed Example.corner_taken
  ∧ Grid.coordinates 1%nat Example.corner_taken = Ret (-1, -1) Example.corner_taken
  ∧ (∀ q, ¬ reads Example.corner_taken q (Some 1%nat))
  ∧ reads Example.corner_taken (8, 4) (Some 2%nat)
  ∧ ∃ w', Grid.remove 1%nat Example.corner_taken = Ret tt w'
      ∧ reads w' (8, 4) None.
Proof.
  assert (Hwf : well_formed Example.corner_taken).
  { split; [reflexivity|]. simpl. repeat constructor. }
  assert (Hrun : Grid.coordinates 1%nat Example.corner_taken
                 = Ret (-1, -1) Example.corner_taken) by reflexivity.
  split_and!; [done|done| |reflexivity|].
  - intros [x y]. rewrite reads_cell by done. simpl.
    destruct (coordinates_spec _ 1%nat Hwf) as (p & Hp & [[_ Hno]|[Hat _]]);
      [apply Hno|].
    rewrite Hrun in Hp. injection Hp as <-.
    by apply cell_Some_valid in Hat.
  - eexists. split; reflexivity.
Qed.

(** ** One cell per occupant *)

Lemma py_index_designated len i k :
  py_index len i = Some k →
  k = Z.to_nat (designated (Z.of_nat len) i) ∧ 0 ≤ designated (Z.of_nat len) i < Z.of_nat len.
Proof.
  intros Hk. unfold designated.
  destruct (py_index_cases len i) as [[Hi Hp]|[[Hi Hp]|[_ Hp]]];
    rewrite Hp in Hk; [| |done]; injection Hk as <-;
    destruct (Z.ltb_spec i 0); lia.
Qed.

Lemma at_most_one_cells w :
  well_formed w →
  at_most_one_cell w ↔
  ∀ o a b a' b', cell w a b = Some o → cell w a' b' = Some o → (a, b) = (a', b').
Proof.
  intros Hwf. unfold at_most_one_cell. split.
  - intros H o a b a' b' Hab Hab'.
    apply (H o (a, b) (a', b')); by apply reads_cell.
  - intros H o [a b] [a' b'] Hab Hab'.
    apply reads_cell in Hab, Hab'; [|done..]. by apply (H o).
Qed.

(** Storing [v] in one cell keeps the occupants apart, provided that an
    occupant stored is in no other cell already. *)
Lemma write_keeps_apart w w' i j v :
  well_formed w → well_formed w' →
  (∀ a b, cell w' a b =
          if bool_decide (Grid.is_valid a b = true ∧ Z.to_nat a = i ∧ Z.to_nat b = j)
          then v else cell w a b) →
  (∀ o a b, v = Some o → cell w a b = Some o → Z.to_nat a = i ∧ Z.to_nat b = j) →
  at_most_one_cell w → at_most_one_cell w'.
Proof.
  intros Hwf Hwf' Hcell Hv Hone.
  rewrite at_most_one_cells in Hone by done. apply at_most_one_cells; [done|].
  intros o a b a' b' Hab Hab'.
  pose proof (cell_Some_valid _ _ _ _ Hab) as Hval.
  pose proof (cell_Some_valid _ _ _ _ Hab') as Hval'.
  rewrite Hcell in Hab, Hab'.
  apply is_valid_spec in Hval, Hval'.
  case_bool_decide as H1; case_bool_decide as H2.
  - destruct H1 as (_ & ? & ?), H2 as (_ & ? & ?). f_equal; lia.
  - destruct (Hv o a b Hab' Hab) as [? ?]. destruct H2.
    split; [by apply is_valid_spec|done].
  - destruct (Hv o a' b' Hab Hab') as [? ?]. destruct H1.
    split; [by apply is_valid_spec|done].
  - by apply (Hone o).
Qed.

Lemma setitem_keeps_apart w x y v :
  well_formed w → at_most_one_cell w →
  (∀ o q, v = Some o → reads w q (Some o) → q = (designated 9 x, designated 5 y)) →
  well_formed (world_of (Grid.__setitem__ (x, y) v w))
  ∧ at_most_one_cell (world_of (Grid.__setitem__ (x, y) v w)).
Proof.
  intros Hwf Hone Hv.
  destruct (py_index 9 x) as [i|] eqn:Hi; [destruct (py_index 5 y) as [j|] eqn:Hj|].
  - destruct (setitem_returns w x y v i j Hwf Hi Hj) as (w' & -> & Hwf' & Hcell & _).
    simpl. split; [done|].
    apply (write_keeps_apart w w' i j v); try done.
    intros o a b -> Hab.
    specialize (Hv o (a, b) eq_refl (proj2 (reads_cell w (a, b) _ Hwf) Hab)).
    injection Hv as -> ->.
    apply py_index_designated in Hi as [-> _], Hj as [-> _]. done.
  - rewrite setitem_raises by auto. done.
  - rewrite setitem_raises by auto. done.
Qed.

(** After [remove] the occupant is in no cell, if it was in one at most. *)
Lemma remove_keeps_apart w o :
  well_formed w → at_most_one_cell w →
  well_formed (world_of (Grid.remove o w))
  ∧ at_most_one_cell (world_of (Grid.remove o w))
  ∧ ∀ q, ¬ reads (world_of (Grid.remove o w)) q (Some o).
Proof.
  intros Hwf Hone.
  destruct (remove_spec w o Hwf) as (w' & i & j & -> & Hwf' & Hcell & _ & _ & Hwhere).
  simpl. split; [done|]. split.
  - apply (write_keeps_apart w w' i j None); try done.
  - intros [a b]. rewrite reads_cell by done. simpl. rewrite Hcell.
    case_bool_decide as Hij; [done|]. intros Hab.
    destruct Hwhere as [Hat|[_ Hno]]; [|by apply (Hno a b)].
    rewrite at_most_one_cells in Hone by done.
    pose proof (Hone o _ _ _ _ Hab Hat) as [= -> ->].
    apply Hij. split; [by apply (cell_Some_valid w _ _ o)|]. by rewrite !Nat2Z.id.
Qed.


Lemma run_well_formed w m : well_formed w → well_formed (world_of (run m w)).
Proof.
  intros Hwf. destruct m as [x y v|o|o|o x y]; simpl.
  - destruct (py_index 9 x) as [i|] eqn:Hi; [destruct (py_index 5 y) as [j|] eqn:Hj|].
    + by destruct (setitem_returns w x y v i j Hwf Hi Hj) as (w' & -> & Hwf' & _).
    + by rewrite setitem_raises by auto.
    + by rewrite setitem_raises by auto.
  - unfold Grid.add, bind, gets.
    set (x := GameObject.x (heap w o)). set (y := GameObject.y (heap w o)).
    destruct (py_index 9 x) as [i|] eqn:Hi; [destruct (py_index 5 y) as [j|] eqn:Hj|].
    + by destruct (setitem_returns w x y (Some o) i j Hwf Hi Hj) as (w' & -> & Hwf' & _).
    + by rewrite setitem_raises by auto.
    + by rewrite setitem_raises by auto.
  - by destruct (remove_spec w o Hwf) as (w' & i & j & -> & Hwf' & _).
  - destruct (remove_spec w o Hwf) as (w1 & i & j & Hrm & Hwf1 & _).
    unfold Grid.move, bind. rewrite Hrm.
    destruct (py_index 9 x) as [i'|] eqn:Hi; [destruct (py_index 5 y) as [j'|] eqn:Hj|].
    + by destruct (setitem_returns w1 x y (Some o) i' j' Hwf1 Hi Hj) as (w' & -> & Hwf' & _).
    + by rewrite setitem_raises by auto.
    + by rewrite setitem_raises by auto.
Qed.

(** Every world that the mutations reach from a new grid has the shape
    that the theorems below assume. *)
Lemma reachable_well_formed w : reachable w → well_formed w.
Proof.
  induction 1 as [w|w m _ IH]; [apply well_formed_init|by apply run_well_formed].
Qed.



Lemma blank_at_most_one : at_most_one_cell Example.blank.
Proof.
  apply at_most_one_cells; [apply well_formed_init|].
  intros o a b a' b' Hab _. exfalso. revert Hab. unfold cell.
  destruct (Grid.is_valid a b) eqn:Hv; [|done].
  apply is_valid_spec in Hv.
  assert (Hrow : ∃ i, (i < 9)%nat ∧ Z.to_nat a = i) by (exists (Z.to_nat a); lia).
  assert (Hcol : ∃ j, (j < 5)%nat ∧ Z.to_nat b = j) by (exists (Z.to_nat b); lia).
  destruct Hrow as (i & Hi & ->), Hcol as (j & Hj & ->).
  do 9 (destruct i as [|i]; [do 5 (destruct j as [|j]; [done|]); lia|]). lia.
Qed.

Lemma blank_cells_empty x y : cell Example.blank x y = None.
Proof.
  unfold cell. destruct (Grid.is_valid x y) eqn:Hv; [|done].
  apply is_valid_spec in Hv.
  assert (Hrow : ∃ i, (i < 9)%nat ∧ Z.to_nat x = i) by (exists (Z.to_nat x); lia).
  assert (Hcol : ∃ j, (j < 5)%nat ∧ Z.to_nat y = j) by (exists (Z.to_nat y); lia).
  destruct Hrow as (i & Hi & ->), Hcol as (j & Hj & ->).
  do 9 (destruct i as [|i]; [do 5 (destruct j as [|j]; [done|]); lia|]). lia.
Qed.

Lemma one_placed_at_most_one : at_most_one_cell Example.one_placed.
Proof.
  apply (setitem_keeps_apart Example.blank 0 0 (Some 1%nat));
    [apply well_formed_init|apply blank_at_most_one|].
  intros o q _ Hq. apply reads_cell in Hq; [|apply well_formed_init].
  by rewrite blank_cells_empty in Hq.
Qed.

Lemma two_placed_at_most_one : at_most_one_cell Example.two_placed.
Proof.
  assert (Hwf : well_formed Example.one_placed).
  { split; [reflexivity|]. simpl. repeat constructor. }
  apply (setitem_keeps_apart Example.one_placed 2 0 (Some 2%nat));
    [done|apply one_placed_at_most_one|].
  intros o [a b] [= <-] Hq. exfalso.
  destruct (Grid.is_valid a b) eqn:Hv.
  - apply is_valid_spec in Hv as [Ha Hb].
    assert (Has : a = 0 ∨ a = 1 ∨ a = 2 ∨ a = 3 ∨ a = 4 ∨ a = 5 ∨ a = 6 ∨ a = 7 ∨ a = 8)
      by lia.
    assert (Hbs : b = 0 ∨ b = 1 ∨ b = 2 ∨ b = 3 ∨ b = 4) by lia.
    destruct Has as [->|[->|[->|[->|[->|[->|[->|[->| ->]]]]]]]];
      destruct Hbs as [->|[->|[->|[->| ->]]]];
      vm_compute in Hq; discriminate Hq.
  - unfold reads, Grid.__getitem__ in Hq. simpl in Hq. rewrite Hv in Hq.
    discriminate Hq.
Qed.



(** ** Moving *)




(** ** The spawn search *)

Lemma random_choice_range a n w :
  0 < n →
  random_choice (seqZ a n) w
  = Ret (a + Z.of_nat (entropy w (drawn w) mod Z.to_nat n)) (set_drawn (S (drawn w)) w).
Proof.
  intros Hn. unfold random_choice, bind, gets. rewrite length_seqZ.
  rewrite lookup_seqZ_lt; [done|].
  pose proof (Nat.mod_upper_bound (entropy w (drawn w)) (Z.to_nat n)). lia.
Qed.

Lemma draw_run w :
  Grid.draw w
  = Ret (6 + Z.of_nat (entropy w (drawn w) mod 3),
         0 + Z.of_nat (entropy w (S (drawn w)) mod 5))
        (set_drawn (S (S (drawn w))) w).
Proof.
  unfold Grid.draw, Grid.enemy_spawns, range, bind. simpl.
  rewrite (random_choice_range 6 (9 - 6)) by lia.
  by rewrite (random_choice_range 0 (5 - 0)) by lia.
Qed.

Lemma nth_draw_in_zone w k :
  Grid.draw (set_drawn (drawn w + 2 * k) w)
  = Ret (nth_draw w k) (set_drawn (drawn w + 2 * S k) w)
  ∧ 6 ≤ (nth_draw w k).1 ≤ 8 ∧ 0 ≤ (nth_draw w k).2 ≤ 4.
Proof.
  unfold nth_draw. rewrite draw_run. simpl. split.
  - f_equal. unfold set_drawn. simpl. f_equal. lia.
  - pose proof (Nat.mod_upper_bound (entropy w (drawn w + (k + (k + 0)))) 3).
    pose proof (Nat.mod_upper_bound (entropy w (S (drawn w + (k + (k + 0))))) 5).
    lia.
Qed.


Lemma well_formed_set_drawn n w : well_formed w → well_formed (set_drawn n w).
Proof. done. Qed.

(** One attempt: the body of the loop of [enemy_spawn_location]. *)
Lemma attempt_run w :
  well_formed w →
  (let* p := Grid.draw in
   let* free := Grid.can_move p.1 p.2 in
   if free then ret (Some p) else ret None) w
  = Ret (if bool_decide (cell w (nth_draw w 0).1 (nth_draw w 0).2 = None)
         then Some (nth_draw w 0) else None)
        (set_drawn (drawn w + 2 * 1) w).
Proof.
  intros Hwf. destruct (nth_draw_in_zone w 0) as (Hdraw & Hx & Hy).
  replace (set_drawn (drawn w + 2 * 0) w) with w in Hdraw
    by (destruct w; unfold set_drawn; simpl; f_equal; lia).
  unfold bind at 1. rewrite Hdraw. unfold bind.
  rewrite can_move_run by done.
  assert (Hv : Grid.is_valid (nth_draw w 0).1 (nth_draw w 0).2 = true)
    by (apply is_valid_spec; lia).
  rewrite Hv. simpl.
  change (cell (set_drawn (drawn w + 2) w)) with (cell w).
  by destruct (bool_decide _).
Qed.





(** ** The neighbourhood *)

Lemma surrounding_tiles_run w cx cy d :
  Grid.surrounding_tiles cx cy d w
  = Ret ((fun p : Z * Z =>
            find (fun tile => bool_decide (GameObject.x (heap w tile) = p.1)
                              && bool_decide (GameObject.y (heap w tile) = p.2))
                 (tiles w)) <$> ring cx cy d) w.
Proof.
  unfold Grid.surrounding_tiles, ring.
  apply for_yield_map. intros x _. apply for_yield_map. intros y _.
  destruct (negb (Grid.is_valid x y)); [done|].
  by destruct (bool_decide (x = cx) && bool_decide (y = cy)).
Qed.

Lemma elem_of_kept (v c : bool) (a p : Z * Z) :
  p ∈ (if negb v then [] else if c then [] else [a]) ↔ v = true ∧ c = false ∧ p = a.
Proof.
  destruct v, c; simpl; rewrite ?elem_of_nil, ?list_elem_of_singleton;
    intuition congruence.
Qed.

Lemma elem_of_ring cx cy d x y :
  (x, y) ∈ ring cx cy d ↔
  cx - d ≤ x ≤ cx + d ∧ cy - d ≤ y ≤ cy + d ∧ (0 ≤ x ≤ 8 ∧ 0 ≤ y ≤ 4) ∧ (x, y) ≠ (cx, cy).
Proof.
  unfold ring. rewrite list_elem_of_bind. split.
  - intros (x' & Hin & Hx'). apply list_elem_of_bind in Hin as (y' & Hin & Hy').
    apply elem_of_range in Hx', Hy'.
    apply elem_of_kept in Hin as (Hv & Hc & [= -> ->]).
    apply is_valid_spec in Hv. split_and!; try lia.
    intros [= -> ->]. by rewrite !bool_decide_eq_true_2 in Hc.
  - intros (Hx & Hy & Hv & Hne). exists x. split; [|apply elem_of_range; lia].
    apply list_elem_of_bind. exists y. split; [|apply elem_of_range; lia].
    apply elem_of_kept. split_and!; [by apply is_valid_spec| |done].
    apply andb_false_iff.
    destruct (decide (x = cx)) as [->|Hx'].
    + right. apply bool_decide_eq_false_2. congruence.
    + left. by apply bool_decide_eq_false_2.
Qed.

Lemma sorted_bind {A B} (R : relation A) (S : relation B) (f : A → list B) l :
  StronglySorted R l →
  (∀ a, StronglySorted S (f a)) →
  (∀ a a' p q, R a a' → p ∈ f a → q ∈ f a' → S p q) →
  StronglySorted S (l ≫= f).
Proof.
  induction 1 as [|a l Hl IH Hall]; intros Hf Hcross.
  - constructor.
  - rewrite bind_cons. apply StronglySorted_app_2; [|apply Hf|by apply IH].
    intros p q Hp Hq. apply list_elem_of_bind in Hq as (a' & Hq & Ha').
    apply (Hcross a a'); [|done..].
    rewrite Forall_forall in Hall. by apply Hall.
Qed.

Lemma range_sorted a b : StronglySorted Z.lt (range a b).
Proof.
  unfold range. remember (Z.to_nat (b - a)) as n eqn:Hn.
  revert a b Hn. induction n as [|n IH]; intros a b Hn.
  - rewrite seqZ_nil by lia. constructor.
  - rewrite seqZ_cons by lia. constructor.
    + replace (Z.pred (b - a)) with (b - Z.succ a) by lia. apply IH. lia.
    + apply Forall_seqZ. lia.
Qed.

Lemma ring_sorted cx cy d : StronglySorted row_major (ring cx cy d).
Proof.
  unfold ring. apply (sorted_bind Z.lt); [apply range_sorted| |].
  - intros x. apply (sorted_bind Z.lt); [apply range_sorted| |].
    + intros y. destruct (negb _); [constructor|].
      destruct (_ && _); repeat constructor.
    + intros y y' p q Hlt Hp Hq.
      apply elem_of_kept in Hp as (_ & _ & ->), Hq as (_ & _ & ->).
      right. simpl. done.
  - intros x x' p q Hlt Hp Hq.
    apply list_elem_of_bind in Hp as (y & Hp & _), Hq as (y' & Hq & _).
    apply elem_of_kept in Hp as (_ & _ & ->), Hq as (_ & _ & ->).
    left. simpl. done.
Qed.

(** The tile that [get_tile] finds reports the coordinate asked for. *)
Lemma get_tile_position w x y tile :
  Grid.get_tile x y w = Ret (Some tile) w → position_of w tile = (x, y).
Proof.
  unfold Grid.get_tile, gets. intros [= Hfind].
  apply find_some in Hfind as [_ Hfields].
  apply andb_true_iff in Hfields as [Hx Hy].
  apply bool_decide_eq_true in Hx, Hy. unfold position_of. by rewrite Hx, Hy.
Qed.






(** ** The methods run on small boards *)

(** At a corner the coordinates below 0 are left out. *)
Example surrounding_tiles_at_corner :
  ∃ tl, Grid.surrounding_tiles 0 0 1 Example.tiled = Ret (Some <$> tl) Example.tiled
    ∧ position_of Example.tiled <$> tl = [(0, 1); (1, 0); (1, 1)].
Proof. exists [101%nat; 105%nat; 106%nat]. split; reflexivity. Qed.

(** A unit at [(0, 0)] with a budget of 2 reaches [(2, 0)], not [(3, 0)]. *)
Example can_move_to_tile_within_budget :
  Grid.can_move_to_tile 1%nat 2 0 Example.one_placed = Ret true Example.one_placed
  ∧ Grid.can_move_to_tile 1%nat 3 0 Example.one_placed = Ret false Example.one_placed.
Proof. split; reflexivity. Qed.

(** A move to the cell where the occupant stands leaves it there, once. *)
Example move_to_same_cell :
  ∃ w', Grid.move 1%nat 0 0 Example.one_placed = Ret tt w'
    ∧ array w' = array Example.one_placed
    ∧ Grid.coordinates 1%nat w' = Ret (0, 0) w'.
Proof. eexists. split_and!; reflexivity. Qed.

(** A negative destination in range is taken from the end of the table,
    and the occupant reports the negative coordinate. *)
Example move_to_negative_destination :
  ∃ w', Grid.move 1%nat (-1) (-1) Example.one_placed = Ret tt w'
    ∧ Grid.__getitem__ (8, 4) w' = Ret (Some 1%nat) w'
    ∧ position_of w' 1%nat = (-1, -1).
Proof. eexists. split_and!; reflexivity. Qed.

(** With the raw draws 8, 9, 10, 11 the first candidate is the taken
    corner [(8, 4)] and the second, [(7, 1)], is returned after four
    draws. *)
Example enemy_spawn_location_second_candidate :
  Grid.enemy_spawn_location 100 (set_drawn 8 Example.corner_taken)
  = Ret (7, 1) (set_drawn 12 Example.corner_taken).
Proof. reflexivity. Qed.

(** An occupant that was placed and removed is nowhere. *)
Example placed_then_removed :
  ∃ w', Grid.remove 1%nat Example.one_placed = Ret tt w'
    ∧ Grid.coordinates 1%nat w' = Ret (-1, -1) w'
    ∧ Grid.__getitem__ (0, 0) w' = Ret None w'.
Proof. eexists. split_and!; reflexivity. Qed.

(** ** Writes at any index *)

Lemma py_index_total len x :
  - Z.of_nat len ≤ x < Z.of_nat len →
  py_index len x = Some (Z.to_nat (designated (Z.of_nat len) x))
  ∧ 0 ≤ designated (Z.of_nat len) x < Z.of_nat len.
Proof.
  intros Hx. unfold designated.
  destruct (py_index_cases len x) as [[Hi Hp]|[[Hi Hp]|[Hi _]]]; [| |lia];
    rewrite Hp; destruct (Z.ltb_spec x 0); try lia; (split; [done|lia]).
Qed.

Lemma designated_same n i : 0 ≤ i → designated n i = i.
Proof. intros H. unfold designated. by destruct (Z.ltb_spec i 0); [lia|]. Qed.

(** A write whose indices Python accepts, told by the coordinate of the
    cell it designates. *)
Lemma setitem_designated w x y v :
  well_formed w → -9 ≤ x ≤ 8 → -5 ≤ y ≤ 4 →
  ∃ w', Grid.__setitem__ (x, y) v w = Ret tt w'
    ∧ well_formed w'
    ∧ (∀ a b, cell w' a b =
              if bool_decide ((a, b) = (designated 9 x, designated 5 y))
              then v else cell w a b)
    ∧ tiles w' = tiles w
    ∧ heap w' = match v with
                | Some o => <[o := GameObject.make x y (GameObject.move (heap w o))]> (heap w)
                | None => heap w
                end
    ∧ fresh w' = fresh w ∧ entropy w' = entropy w ∧ drawn w' = drawn w.
Proof.
  intros Hwf Hx Hy.
  destruct (py_index_total 9 x) as [Hi Hdx]; [lia|].
  destruct (py_index_total 5 y) as [Hj Hdy]; [lia|].
  change (Z.of_nat 9) with 9 in *. change (Z.of_nat 5) with 5 in *.
  destruct (setitem_returns w x y v _ _ Hwf Hi Hj)
    as (w' & Hrun & Hwf' & Hcell & Htiles & Hheap & Hfresh & Hent & Hdrawn).
  exists w'. split_and!; try done.
  intros a b. rewrite Hcell.
  destruct (Grid.is_valid a b) eqn:Hv.
  - apply is_valid_spec in Hv.
    destruct (decide ((a, b) = (designated 9 x, designated 5 y))) as [[= -> ->]|Hne].
    + rewrite !bool_decide_eq_true_2; done.
    + rewrite !bool_decide_eq_false_2; [done|done|].
      intros (_ & Ha & Hb). apply Hne. f_equal; lia.
  - rewrite bool_decide_eq_false_2 by (intros [? _]; congruence).
    rewrite bool_decide_eq_false_2; [done|].
    intros [= -> ->]. apply is_valid_false in Hv. lia.
Qed.

Lemma designated_valid x y :
  -9 ≤ x ≤ 8 → -5 ≤ y ≤ 4 → Grid.is_valid (designated 9 x) (designated 5 y) = true.
Proof.
  intros Hx Hy. apply is_valid_spec. unfold designated.
  destruct (Z.ltb_spec x 0), (Z.ltb_spec y 0); lia.
Qed.

(** X2: a write at indices with [-9 <= x <= 8] and [-5 <= y <= 4]
    returns; the cell that the indices designate (a negative index counts
    from the end) reads the value written, every other coordinate reads
    what it read, and a stored occupant reports the raw [x] and [y]; a
    write at any other indices raises [IndexError] and changes nothing. *)
Theorem setitem_any_index w x y v :
  well_formed w →
  (-9 ≤ x ≤ 8 → -5 ≤ y ≤ 4 →
     ∃ w', Grid.__setitem__ (x, y) v w = Ret tt w'
       ∧ reads w' (designated 9 x, designated 5 y) v
       ∧ (∀ q c, q ≠ (designated 9 x, designated 5 y) → reads w' q c ↔ reads w q c)
       ∧ (∀ o, v = Some o → position_of w' o = (x, y)))
  ∧ (x < -9 ∨ 8 < x ∨ y < -5 ∨ 4 < y →
     Grid.__setitem__ (x, y) v w = Raise IndexError w).
Proof.
  intros Hwf. split.
  - intros Hx Hy.
    destruct (setitem_designated w x y v Hwf Hx Hy)
      as (w' & Hrun & Hwf' & Hcell & _ & Hheap & _).
    exists w'. split_and!; [done| | |].
    + apply reads_cell; [done|]. simpl. rewrite Hcell.
      by rewrite bool_decide_eq_true_2.
    + intros [a b] c Hne. rewrite !reads_cell by done. simpl. rewrite Hcell.
      by rewrite bool_decide_eq_false_2.
    + intros o ->. unfold position_of. by rewrite Hheap, fn_lookup_insert.
  - intros Hout. apply setitem_raises; [done|].
    destruct Hout as [?|[?|[?|?]]];
      [left|left|right|right]; apply py_index_outside; lia.
Qed.

Lemma setitem_any_index_witness :
  ∃ w', Grid.__setitem__ (-9, -5) (Some 3%nat) Example.one_placed = Ret tt w'
    ∧ reads w' (designated 9 (-9), designated 5 (-5)) (Some 3%nat)
    ∧ (∀ q c, q ≠ (designated 9 (-9), designated 5 (-5)) →
              reads w' q c ↔ reads Example.one_placed q c)
    ∧ (∀ o, Some 3%nat = Some o → position_of w' o = (-9, -5)).
Proof.
  apply (setitem_any_index Example.one_placed (-9) (-5) (Some 3%nat)); [|lia|lia].
  split; [reflexivity|]. simpl. repeat constructor.
Defined.

(** ** Asking whether a cell is free *)

(** X1: [can_move] returns and changes nothing, and answers true exactly
    when the coordinate is in range and its cell is empty, that is, when
    the table holds none there; out of range the answer is false whatever
    the table holds. *)
Theorem can_move_iff w x y :
  well_formed w →
  ∃ b, Grid.can_move x y w = Ret b w
    ∧ (b = true ↔ (0 ≤ x ≤ 8 ∧ 0 ≤ y ≤ 4) ∧ reads w (x, y) None)
    ∧ (x < 0 ∨ x > 8 ∨ y < 0 ∨ y > 4 → b = false)
    ∧ (b = true ↔ (0 ≤ x ≤ 8 ∧ 0 ≤ y ≤ 4) ∧ stored w x y None).
Proof.
  intros Hwf. rewrite can_move_run by done. eexists. split; [reflexivity|].
  rewrite reads_cell, stored_cell by done. simpl.
  rewrite andb_true_iff, is_valid_spec, bool_decide_eq_true. split_and!; [done| |tauto].
  intros Hout. apply is_valid_false in Hout. by rewrite Hout.
Qed.

Lemma can_move_iff_witness :
  ∃ b, Grid.can_move 8 4 Example.corner_taken = Ret b Example.corner_taken
    ∧ (b = true ↔ (0 ≤ 8 ≤ 8 ∧ 0 ≤ 4 ≤ 4) ∧ reads Example.corner_taken (8, 4) None)
    ∧ (8 < 0 ∨ 8 > 8 ∨ 4 < 0 ∨ 4 > 4 → b = false)
    ∧ (b = true ↔ (0 ≤ 8 ≤ 8 ∧ 0 ≤ 4 ≤ 4) ∧ stored Example.corner_taken 8 4 None).
Proof.
  apply (can_move_iff Example.corner_taken 8 4).
  split; [reflexivity|]. simpl. repeat constructor.
Defined.

(** ** Placing, locating and removing together *)

Lemma coordinates_at w o a b :
  well_formed w →
  cell w a b = Some o →
  (∀ x y, row_major (x, y) (a, b) → cell w x y ≠ Some o) →
  Grid.coordinates o w = Ret (a, b) w.
Proof.
  intros Hwf Hat Hfirst.
  destruct (coordinates_spec w o Hwf) as ([x y] & Hrun & [[_ Hno]|[Hat' Hfirst']]).
  { by destruct (Hno a b). }
  rewrite Hrun. simpl in Hat'.
  assert (Heq : (x, y) = (a, b)); [|by rewrite Heq].
  destruct (Z.lt_trichotomy x a) as [Hlt|[->|Hgt]].
  - destruct (Hfirst x y); [by left|done].
  - destruct (Z.lt_trichotomy y b) as [Hlt|[->|Hgt]]; [|done|].
    + destruct (Hfirst a y); [by right|done].
    + destruct (Hfirst' a b); [by right|done].
  - destruct (Hfirst' a b); [by left|done].
Qed.

Lemma coordinates_absent w o :
  well_formed w → (∀ x y, cell w x y ≠ Some o) →
  Grid.coordinates o w = Ret (-1, -1) w.
Proof.
  intros Hwf Hno.
  destruct (coordinates_spec w o Hwf) as (p & Hrun & [[-> _]|[Hat _]]); [done|].
  by destruct (Hno p.1 p.2).
Qed.

(** [remove] of an occupant whose first cell is [(a, b)]. *)
Lemma remove_at w o a b :
  well_formed w →
  Grid.coordinates o w = Ret (a, b) w → cell w a b = Some o →
  ∃ w', Grid.remove o w = Ret tt w'
    ∧ well_formed w'
    ∧ (∀ a' b', cell w' a' b' =
                if bool_decide ((a', b') = (a, b)) then None else cell w a' b')
    ∧ tiles w' = tiles w ∧ heap w' = heap w
    ∧ fresh w' = fresh w ∧ entropy w' = entropy w ∧ drawn w' = drawn w.
Proof.
  intros Hwf Hrun Hat.
  pose proof (cell_Some_valid _ _ _ _ Hat) as Hv. apply is_valid_spec in Hv.
  destruct (setitem_designated w a b None Hwf) as (w' & Hset & Hrest); [lia..|].
  unfold designated in Hrest.
  destruct (Z.ltb_spec a 0), (Z.ltb_spec b 0); try lia.
  exists w'. split; [|done]. unfold Grid.remove, bind. by rewrite Hrun.
Qed.

(** X3: after a write of an occupant that was in no cell, at indices
    that Python accepts, [coordinates] answers the cell that the indices
    designate while the occupant reports the raw indices: the two agree
    exactly when neither index is negative. *)
Theorem setitem_then_coordinates w x y o :
  well_formed w → -9 ≤ x ≤ 8 → -5 ≤ y ≤ 4 →
  (∀ q, ¬ reads w q (Some o)) →
  ∃ w', Grid.__setitem__ (x, y) (Some o) w = Ret tt w'
    ∧ Grid.coordinates o w' = Ret (designated 9 x, designated 5 y) w'
    ∧ position_of w' o = (x, y)
    ∧ ((designated 9 x, designated 5 y) = (x, y) ↔ 0 ≤ x ∧ 0 ≤ y).
Proof.
  intros Hwf Hx Hy Hno.
  destruct (setitem_designated w x y (Some o) Hwf Hx Hy)
    as (w' & Hrun & Hwf' & Hcell & _ & Hheap & _).
  exists w'. split_and!; [done| | |].
  - apply coordinates_at; [done| |].
    + rewrite Hcell. by rewrite bool_decide_eq_true_2.
    + intros a b Hrm. rewrite Hcell. case_bool_decide as Heq.
      * injection Heq as -> ->. unfold row_major in Hrm. simpl in Hrm. lia.
      * intros Hab. apply (Hno (a, b)). by apply reads_cell.
  - unfold position_of. by rewrite Hheap, fn_lookup_insert.
  - unfold designated. destruct (Z.ltb_spec x 0), (Z.ltb_spec y 0);
      (split; [intros Heq; inversion Heq; lia | intros [? ?]; (lia || done)]).
Qed.

Lemma setitem_then_coordinates_witness :
  ∃ w', Grid.__setitem__ (-1, 2) (Some 1%nat) Example.corner_taken = Ret tt w'
    ∧ Grid.coordinates 1%nat w' = Ret (designated 9 (-1), designated 5 2) w'
    ∧ position_of w' 1%nat = (-1, 2)
    ∧ ((designated 9 (-1), designated 5 2) = (-1, 2) ↔ 0 ≤ -1 ∧ 0 ≤ 2).
Proof.
  apply (setitem_then_coordinates Example.corner_taken (-1) 2 1%nat); [|lia|lia|].
  - split; [reflexivity|]. simpl. repeat constructor.
  - intros [a b] Hab.
    destruct (Grid.is_valid a b) eqn:Hv.
    + apply is_valid_spec in Hv as [Ha Hb].
      assert (Has : a = 0 ∨ a = 1 ∨ a = 2 ∨ a = 3 ∨ a = 4 ∨ a = 5 ∨ a = 6 ∨ a = 7 ∨ a = 8)
        by lia.
      assert (Hbs : b = 0 ∨ b = 1 ∨ b = 2 ∨ b = 3 ∨ b = 4) by lia.
      destruct Has as [->|[->|[->|[->|[->|[->|[->|[->| ->]]]]]]]];
        destruct Hbs as [->|[->|[->|[->| ->]]]];
        vm_compute in Hab; discriminate Hab.
    + unfold reads, Grid.__getitem__ in Hab. simpl in Hab. rewrite Hv in Hab.
      discriminate Hab.
Defined.

(** X4: [add] stores the occupant in the cell that its own [x] and [y]
    designate, when Python accepts them as indices, and changes no
    attribute of any object and no other cell; with its own [x] outside
    [-9, 8] or [y] outside [-5, 4] it raises [IndexError] and changes
    nothing. *)
Theorem add_at_own_coordinates w o :
  well_formed w →
  (-9 ≤ (position_of w o).1 ≤ 8 → -5 ≤ (position_of w o).2 ≤ 4 →
     ∃ w', Grid.add o w = Ret tt w'
       ∧ reads w' (designated 9 (position_of w o).1, designated 5 (position_of w o).2) (Some o)
       ∧ (∀ q c, q ≠ (designated 9 (position_of w o).1, designated 5 (position_of w o).2) →
                 reads w' q c ↔ reads w q c)
       ∧ (∀ r, heap w' r = heap w r))
  ∧ ((position_of w o).1 < -9 ∨ 8 < (position_of w o).1
     ∨ (position_of w o).2 < -5 ∨ 4 < (position_of w o).2 →
     Grid.add o w = Raise IndexError w).
Proof.
  intros Hwf. unfold position_of. simpl.
  set (x := GameObject.x (heap w o)). set (y := GameObject.y (heap w o)).
  assert (Hadd : Grid.add o w = Grid.__setitem__ (x, y) (Some o) w) by done.
  rewrite Hadd. split.
  - intros Hx Hy.
    destruct (setitem_designated w x y (Some o) Hwf Hx Hy)
      as (w' & Hrun & Hwf' & Hcell & _ & Hheap & _).
    exists w'. split_and!; [done| | |].
    + apply reads_cell; [done|]. simpl. rewrite Hcell.
      by rewrite bool_decide_eq_true_2.
    + intros [a b] c Hne. rewrite !reads_cell by done. simpl. rewrite Hcell.
      by rewrite bool_decide_eq_false_2.
    + intros r. rewrite Hheap. destruct (decide (o = r)) as [<-|Hne].
      * rewrite fn_lookup_insert. unfold x, y. by destruct (heap w o).
      * by rewrite fn_lookup_insert_ne.
  - intros Hout. apply setitem_raises; [done|].
    destruct Hout as [?|[?|[?|?]]];
      [left|left|right|right]; apply py_index_outside; lia.
Qed.

Lemma add_at_own_coordinates_witness :
  (-9 ≤ (position_of Example.blank 1%nat).1 ≤ 8 →
   -5 ≤ (position_of Example.blank 1%nat).2 ≤ 4 →
     ∃ w', Grid.add 1%nat Example.blank = Ret tt w'
       ∧ reads w' (designated 9 (position_of Example.blank 1%nat).1,
                   designated 5 (position_of Example.blank 1%nat).2) (Some 1%nat)
       ∧ (∀ q c, q ≠ (designated 9 (position_of Example.blank 1%nat).1,
                      designated 5 (position_of Example.blank 1%nat).2) →
                 reads w' q c ↔ reads Example.blank q c)
       ∧ (∀ r, heap w' r = heap Example.blank r))
  ∧ ((position_of Example.blank 1%nat).1 < -9 ∨ 8 < (position_of Example.blank 1%nat).1
     ∨ (position_of Example.blank 1%nat).2 < -5 ∨ 4 < (position_of Example.blank 1%nat).2 →
     Grid.add 1%nat Example.blank = Raise IndexError Example.blank).
Proof.
  apply (add_at_own_coordinates Example.blank 1%nat).
  split; [reflexivity|]. simpl. repeat constructor.
Defined.

(** X5: [remove] of an occupant that some cell holds returns, empties
    the cell that [coordinates] answers, leaves what every other
    coordinate reads as it was, and changes no attribute: the occupant
    goes on reporting the cell it left.  When no occupant was stored
    twice, the occupant is then in no cell. *)
Theorem remove_found w o q :
  well_formed w → reads w q (Some o) →
  ∃ p w', Grid.coordinates o w = Ret p w
    ∧ Grid.remove o w = Ret tt w'
    ∧ reads w p (Some o)
    ∧ reads w' p None
    ∧ (∀ q' c, q' ≠ p → reads w' q' c ↔ reads w q' c)
    ∧ heap w' = heap w
    ∧ (at_most_one_cell w → ∀ q', ¬ reads w' q' (Some o)).
Proof.
  intros Hwf Hq. apply reads_cell in Hq; [|done].
  destruct (coordinates_spec w o Hwf) as ([a b] & Hrun & [[_ Hno]|[Hat _]]).
  { by destruct (Hno q.1 q.2). }
  simpl in Hat.
  destruct (remove_at w o a b Hwf Hrun Hat) as (w' & Hrm & Hwf' & Hcell & _ & Hheap & _).
  exists (a, b), w'. split_and!; [done|done|by apply reads_cell| | |done|].
  - apply reads_cell; [done|]. simpl. rewrite Hcell. by rewrite bool_decide_eq_true_2.
  - intros [a' b'] c Hne. rewrite !reads_cell by done. simpl. rewrite Hcell.
    by rewrite bool_decide_eq_false_2.
  - intros Hone. destruct (remove_keeps_apart w o Hwf Hone) as (_ & _ & Hgone).
    by rewrite Hrm in Hgone.
Qed.

Lemma remove_found_witness :
  ∃ p w', Grid.coordinates 1%nat Example.stored_twice = Ret p Example.stored_twice
    ∧ Grid.remove 1%nat Example.stored_twice = Ret tt w'
    ∧ reads Example.stored_twice p (Some 1%nat)
    ∧ reads w' p None
    ∧ (∀ q' c, q' ≠ p → reads w' q' c ↔ reads Example.stored_twice q' c)
    ∧ heap w' = heap Example.stored_twice
    ∧ (at_most_one_cell Example.stored_twice → ∀ q', ¬ reads w' q' (Some 1%nat)).
Proof.
  apply (remove_found Example.stored_twice 1%nat (1, 1)).
  - split; [reflexivity|]. simpl. repeat constructor.
  - reflexivity.
Defined.

(** X6: when [coordinates] finds the occupant where the occupant itself
    reports to be, [remove] and then [add] bring the board back: every
    coordinate reads what it read and every attribute is what it was. *)
Theorem remove_then_add w o :
  well_formed w →
  reads w (position_of w o) (Some o) →
  Grid.coordinates o w = Ret (position_of w o) w →
  ∃ w1 w2, Grid.remove o w = Ret tt w1
    ∧ Grid.add o w1 = Ret tt w2
    ∧ (∀ q c, reads w2 q c ↔ reads w q c)
    ∧ (∀ r, heap w2 r = heap w r).
Proof.
  intros Hwf Hat Hrun. apply reads_cell in Hat; [|done].
  unfold position_of in *. simpl in Hat.
  set (x := GameObject.x (heap w o)) in *. set (y := GameObject.y (heap w o)) in *.
  pose proof (cell_Some_valid _ _ _ _ Hat) as Hv. apply is_valid_spec in Hv.
  destruct (remove_at w o x y Hwf Hrun Hat) as (w1 & Hrm & Hwf1 & Hcell1 & _ & Hheap1 & _).
  assert (Hadd : Grid.add o w1 = Grid.__setitem__ (x, y) (Some o) w1).
  { unfold Grid.add, bind, gets. by rewrite Hheap1. }
  destruct (setitem_designated w1 x y (Some o) Hwf1) as (w2 & Hset & Hwf2 & Hcell2 & _ & Hheap2 & _);
    [lia..|].
  rewrite !designated_same in Hcell2 by lia.
  exists w1, w2. split_and!; [done|by rewrite Hadd| |].
  - intros [a b] c. rewrite !reads_cell by done. simpl. rewrite Hcell2, Hcell1.
    case_bool_decide as Heq; [|done]. injection Heq as -> ->. by rewrite Hat.
  - intros r. rewrite Hheap2, Hheap1. destruct (decide (o = r)) as [<-|Hne].
    + rewrite fn_lookup_insert. unfold x, y. by destruct (heap w o).
    + by rewrite fn_lookup_insert_ne.
Qed.

Lemma remove_then_add_witness :
  ∃ w1 w2, Grid.remove 1%nat Example.one_placed = Ret tt w1
    ∧ Grid.add 1%nat w1 = Ret tt w2
    ∧ (∀ q c, reads w2 q c ↔ reads Example.one_placed q c)
    ∧ (∀ r, heap w2 r = heap Example.one_placed r).
Proof.
  apply (remove_then_add Example.one_placed 1%nat).
  - split; [reflexivity|]. simpl. repeat constructor.
  - reflexivity.
  - reflexivity.
Defined.

(** X7: for an occupant that is in no cell and reports a valid
    coordinate whose cell is empty, [add] and then [remove] bring the
    board back: every coordinate reads what it read and every attribute
    is what it was. *)
Theorem add_then_remove w o :
  well_formed w →
  (∀ q, ¬ reads w q (Some o)) →
  0 ≤ (position_of w o).1 ≤ 8 → 0 ≤ (position_of w o).2 ≤ 4 →
  reads w (position_of w o) None →
  ∃ w1 w2, Grid.add o w = Ret tt w1
    ∧ Grid.remove o w1 = Ret tt w2
    ∧ (∀ q c, reads w2 q c ↔ reads w q c)
    ∧ (∀ r, heap w2 r = heap w r).
Proof.
  intros Hwf Hno Hx Hy Hempty. apply reads_cell in Hempty; [|done].
  unfold position_of in *. simpl in Hx, Hy, Hempty.
  set (x := GameObject.x (heap w o)) in *. set (y := GameObject.y (heap w o)) in *.
  assert (Hadd : Grid.add o w = Grid.__setitem__ (x, y) (Some o) w) by done.
  destruct (setitem_designated w x y (Some o) Hwf) as (w1 & Hset & Hwf1 & Hcell1 & _ & Hheap1 & _);
    [lia..|].
  rewrite !designated_same in Hcell1 by lia.
  assert (Hat1 : cell w1 x y = Some o).
  { rewrite Hcell1. by rewrite bool_decide_eq_true_2. }
  assert (Hrun1 : Grid.coordinates o w1 = Ret (x, y) w1).
  { apply coordinates_at; [done..|]. intros a b Hrm. rewrite Hcell1.
    case_bool_decide as Heq.
    - injection Heq as -> ->. unfold row_major in Hrm. simpl in Hrm. lia.
    - intros Hab. apply (Hno (a, b)). by apply reads_cell. }
  destruct (remove_at w1 o x y Hwf1 Hrun1 Hat1) as (w2 & Hrm & Hwf2 & Hcell2 & _ & Hheap2 & _).
  exists w1, w2. split_and!; [by rewrite Hadd|done| |].
  - intros [a b] c. rewrite !reads_cell by done. simpl. rewrite Hcell2, Hcell1.
    case_bool_decide as Heq; [|done]. injection Heq as -> ->. by rewrite Hempty.
  - intros r. rewrite Hheap2, Hheap1. destruct (decide (o = r)) as [<-|Hne].
    + rewrite fn_lookup_insert. unfold x, y. by destruct (heap w o).
    + by rewrite fn_lookup_insert_ne.
Qed.


Lemma add_then_remove_witness :
  ∃ w1 w2, Grid.add 1%nat Example.blank = Ret tt w1
    ∧ Grid.remove 1%nat w1 = Ret tt w2
    ∧ (∀ q c, reads w2 q c ↔ reads Example.blank q c)
    ∧ (∀ r, heap w2 r = heap Example.blank r).
Proof.
  apply (add_then_remove Example.blank 1%nat).
  - split; [reflexivity|]. simpl. repeat constructor.
  - intros [a b] Hab. apply reads_cell in Hab; [|apply well_formed_init].
    by rewrite blank_cells_empty in Hab.
  - simpl. lia.
  - simpl. lia.
  - reflexivity.
Defined.

(** ** Moving an occupant that is on the board *)

(** [move] of an occupant whose first cell is [(a, b)], to indices that
    Python accepts. *)
Lemma move_cells w o a b x y :
  well_formed w →
  Grid.coordinates o w = Ret (a, b) w → cell w a b = Some o →
  -9 ≤ x ≤ 8 → -5 ≤ y ≤ 4 →
  ∃ w', Grid.move o x y w = Ret tt w'
    ∧ well_formed w'
    ∧ (∀ a' b', cell w' a' b' =
                if bool_decide ((a', b') = (designated 9 x, designated 5 y)) then Some o
                else if bool_decide ((a', b') = (a, b)) then None
                else cell w a' b')
    ∧ heap w' = <[o := GameObject.make x y (GameObject.move (heap w o))]> (heap w).
Proof.
  intros Hwf Hrun Hat Hx Hy.
  destruct (remove_at w o a b Hwf Hrun Hat) as (w1 & Hrm & Hwf1 & Hcell1 & _ & Hheap1 & _).
  destruct (setitem_designated w1 x y (Some o) Hwf1 Hx Hy)
    as (w2 & Hset & Hwf2 & Hcell2 & _ & Hheap2 & _).
  exists w2. split_and!; [|done| |].
  - unfold Grid.move, bind. by rewrite Hrm.
  - intros a' b'. by rewrite Hcell2, Hcell1.
  - by rewrite Hheap2, Hheap1.
Qed.

Lemma coordinates_of_only_cell w o a b :
  well_formed w → at_most_one_cell w → cell w a b = Some o →
  Grid.coordinates o w = Ret (a, b) w.
Proof.
  intros Hwf Hone Hat. rewrite at_most_one_cells in Hone by done.
  apply coordinates_at; [done..|]. intros x y Hrm Hxy.
  pose proof (Hone o _ _ _ _ Hxy Hat) as [= -> ->].
  unfold row_major in Hrm. simpl in Hrm. lia.
Qed.

(** X8: on a board where no occupant is stored twice, [move] of an
    occupant that stands at [p] to a valid coordinate returns; then
    [coordinates] answers the destination, the occupant reports the
    destination, [p] is empty unless it is the destination, and every
    coordinate other than these two reads what it read. *)
Theorem move_relocates w o p x y :
  well_formed w → at_most_one_cell w → reads w p (Some o) →
  0 ≤ x ≤ 8 → 0 ≤ y ≤ 4 →
  ∃ w', Grid.move o x y w = Ret tt w'
    ∧ Grid.coordinates o w' = Ret (x, y) w'
    ∧ position_of w' o = (x, y)
    ∧ (p ≠ (x, y) → reads w' p None)
    ∧ (∀ q c, q ≠ p → q ≠ (x, y) → reads w' q c ↔ reads w q c).
Proof.
  intros Hwf Hone Hp Hx Hy. destruct p as [a b].
  apply reads_cell in Hp; [|done]. simpl in Hp.
  pose proof (coordinates_of_only_cell w o a b Hwf Hone Hp) as Hrun.
  destruct (move_cells w o a b x y Hwf Hrun Hp) as (w' & Hmove & Hwf' & Hcell & Hheap); [lia..|].
  rewrite !designated_same in Hcell by lia.
  rewrite at_most_one_cells in Hone by done.
  exists w'. split_and!; [done| | | |].
  - apply coordinates_at; [done| |].
    + rewrite Hcell. by rewrite bool_decide_eq_true_2.
    + intros a' b' Hrm. rewrite Hcell.
      case_bool_decide as H1.
      { injection H1 as -> ->. unfold row_major in Hrm. simpl in Hrm. lia. }
      case_bool_decide as H2; [done|].
      intros Hab. by pose proof (Hone o _ _ _ _ Hab Hp).
  - unfold position_of. by rewrite Hheap, fn_lookup_insert.
  - intros Hne. apply reads_cell; [done|]. simpl. rewrite Hcell.
    rewrite bool_decide_eq_false_2 by done. by rewrite bool_decide_eq_true_2.
  - intros [a' b'] c Hne1 Hne2. rewrite !reads_cell by done. simpl. rewrite Hcell.
    by rewrite !bool_decide_eq_false_2.
Qed.


Lemma move_relocates_witness :
  ∃ w', Grid.move 1%nat 3 2 Example.one_placed = Ret tt w'
    ∧ Grid.coordinates 1%nat w' = Ret (3, 2) w'
    ∧ position_of w' 1%nat = (3, 2)
    ∧ ((0, 0) ≠ (3, 2) → reads w' (0, 0) None)
    ∧ (∀ q c, q ≠ (0, 0) → q ≠ (3, 2) → reads w' q c ↔ reads Example.one_placed q c).
Proof.
  apply (move_relocates Example.one_placed 1%nat (0, 0) 3 2); [| | |lia|lia].
  - split; [reflexivity|]. simpl. repeat constructor.
  - exact one_placed_at_most_one.
  - reflexivity.
Defined.

(** X9: [move] onto a cell that another occupant holds does not refuse:
    on a board where no occupant is stored twice, that occupant is
    afterwards in no cell, [coordinates] answers the sentinel for it, and
    its own [x] and [y] go on reporting the cell it lost. *)
Theorem move_evicts w o p x y o' :
  well_formed w → at_most_one_cell w → reads w p (Some o) →
  o' ≠ o → reads w (x, y) (Some o') →
  ∃ w', Grid.move o x y w = Ret tt w'
    ∧ reads w' (x, y) (Some o)
    ∧ (∀ q, ¬ reads w' q (Some o'))
    ∧ Grid.coordinates o' w' = Ret (-1, -1) w'
    ∧ heap w' o' = heap w o'.
Proof.
  intros Hwf Hone Hp Hne Hdest. destruct p as [a b].
  apply reads_cell in Hp, Hdest; [|done..]. simpl in Hp, Hdest.
  pose proof (cell_Some_valid _ _ _ _ Hdest) as Hv. apply is_valid_spec in Hv.
  pose proof (coordinates_of_only_cell w o a b Hwf Hone Hp) as Hrun.
  destruct (move_cells w o a b x y Hwf Hrun Hp) as (w' & Hmove & Hwf' & Hcell & Hheap); [lia..|].
  rewrite !designated_same in Hcell by lia.
  rewrite at_most_one_cells in Hone by done.
  assert (Hgone : ∀ a' b', cell w' a' b' ≠ Some o').
  { intros a' b'. rewrite Hcell.
    case_bool_decide as H1; [congruence|].
    case_bool_decide as H2; [done|].
    intros Hab. by pose proof (Hone o' _ _ _ _ Hab Hdest). }
  exists w'. split_and!; [done| | | |].
  - apply reads_cell; [done|]. simpl. rewrite Hcell. by rewrite bool_decide_eq_true_2.
  - intros [a' b']. rewrite reads_cell by done. apply Hgone.
  - by apply coordinates_absent.
  - rewrite Hheap. by apply fn_lookup_insert_ne.
Qed.


Lemma move_evicts_witness :
  ∃ w', Grid.move 1%nat 2 0 Example.two_placed = Ret tt w'
    ∧ reads w' (2, 0) (Some 1%nat)
    ∧ (∀ q, ¬ reads w' q (Some 2%nat))
    ∧ Grid.coordinates 2%nat w' = Ret (-1, -1) w'
    ∧ heap w' 2%nat = heap Example.two_placed 2%nat.
Proof.
  apply (move_evicts Example.two_placed 1%nat (0, 0) 2 0 2%nat).
  - split; [reflexivity|]. simpl. repeat constructor.
  - exact two_placed_at_most_one.
  - reflexivity.
  - discriminate.
  - reflexivity.
Defined.

Lemma can_move_to_tile_run w ninja x y :
  well_formed w →
  Grid.can_move_to_tile ninja x y w
  = Ret (Grid.is_valid x y && bool_decide (cell w x y = None)
         && (Z.abs (x - GameObject.x (heap w ninja)) + Z.abs (y - GameObject.y (heap w ninja))
             <=? GameObject.move (heap w ninja))) w.
Proof.
  intros Hwf. unfold Grid.can_move_to_tile, Grid.is_valid.
  destruct (in_range 9 x) eqn:Hx; simpl; [|done].
  destruct (in_range 5 y) eqn:Hy; simpl; [|done].
  unfold bind. rewrite can_move_run by done.
  unfold Grid.is_valid. rewrite Hx, Hy. simpl.
  by destruct (bool_decide (cell w x y = None)).
Qed.

(** X10: a move that [can_move_to_tile] allows, of a unit that is on the
    board, returns; the destination then holds the unit, the unit reports
    the destination, which is within its budget of the position it
    reported before, and every other occupant is in exactly the cells it
    was in. *)
Theorem allowed_move_is_safe w ninja p x y :
  well_formed w → reads w p (Some ninja) →
  Grid.can_move_to_tile ninja x y w = Ret true w →
  ∃ w', Grid.move ninja x y w = Ret tt w'
    ∧ reads w' (x, y) (Some ninja)
    ∧ position_of w' ninja = (x, y)
    ∧ Z.abs (x - (position_of w ninja).1) + Z.abs (y - (position_of w ninja).2)
      ≤ GameObject.move (heap w ninja)
    ∧ (∀ q o, o ≠ ninja → reads w' q (Some o) ↔ reads w q (Some o)).
Proof.
  intros Hwf Hp Hgate. rewrite can_move_to_tile_run in Hgate by done.
  injection Hgate as Hgate.
  apply andb_true_iff in Hgate as [Hgate Hdist].
  apply andb_true_iff in Hgate as [Hv Hempty].
  apply is_valid_spec in Hv. apply bool_decide_eq_true in Hempty. apply Z.leb_le in Hdist.
  apply reads_cell in Hp; [|done].
  destruct (coordinates_spec w ninja Hwf) as ([a b] & Hrun & [[_ Hno]|[Hat _]]).
  { by destruct (Hno p.1 p.2). }
  simpl in Hat.
  destruct (move_cells w ninja a b x y Hwf Hrun Hat) as (w' & Hmove & Hwf' & Hcell & Hheap);
    [lia..|].
  rewrite !designated_same in Hcell by lia.
  exists w'. split_and!; [done| | |done|].
  - apply reads_cell; [done|]. simpl. rewrite Hcell. by rewrite bool_decide_eq_true_2.
  - unfold position_of. by rewrite Hheap, fn_lookup_insert.
  - intros [a' b'] o Hne. rewrite !reads_cell by done. simpl. rewrite Hcell.
    case_bool_decide as H1.
    { injection H1 as -> ->. rewrite Hempty. split; [congruence|done]. }
    case_bool_decide as H2; [|done].
    injection H2 as -> ->. rewrite Hat. split; [done|congruence].
Qed.

Lemma allowed_move_is_safe_witness :
  ∃ w', Grid.move 1%nat 1 1 Example.two_placed = Ret tt w'
    ∧ reads w' (1, 1) (Some 1%nat)
    ∧ position_of w' 1%nat = (1, 1)
    ∧ Z.abs (1 - (position_of Example.two_placed 1%nat).1)
      + Z.abs (1 - (position_of Example.two_placed 1%nat).2)
      ≤ GameObject.move (heap Example.two_placed 1%nat)
    ∧ (∀ q o, o ≠ 1%nat → reads w' q (Some o) ↔ reads Example.two_placed q (Some o)).
Proof.
  apply (allowed_move_is_safe Example.two_placed 1%nat (0, 0) 1 1).
  - split; [reflexivity|]. simpl. repeat constructor.
  - reflexivity.
  - reflexivity.
Defined.

(** ** What the spawn search can return *)

Lemma spawn_loop_sound {A} (l : list A) w :
  well_formed w →
  ∃ k r,
    for_return l (fun _ =>
      let* p := Grid.draw in
      let* free := Grid.can_move p.1 p.2 in
      if free then ret (Some p) else ret None) w
    = Ret r (set_drawn (drawn w + 2 * k) w)
    ∧ (k ≤ length l)%nat
    ∧ ((r = None ∧ k = length l)
       ∨ (∃ p, r = Some p ∧ (1 ≤ k)%nat
               ∧ 6 ≤ p.1 ≤ 8 ∧ 0 ≤ p.2 ≤ 4 ∧ cell w p.1 p.2 = None)).
Proof.
  revert w. induction l as [|a l IH]; intros w Hwf.
  - exists 0%nat, None. simpl. split_and!; [|done|by left].
    unfold ret. f_equal. destruct w; unfold set_drawn; simpl; f_equal; lia.
  - cbn [for_return]. unfold bind at 1. rewrite attempt_run by done.
    case_bool_decide as Hfree.
    + exists 1%nat, (Some (nth_draw w 0)). split_and!; [reflexivity|cbn [length]; lia|].
      right. exists (nth_draw w 0).
      destruct (nth_draw_in_zone w 0) as (_ & Hx & Hy). split_and!; (done || lia).
    + destruct (IH (set_drawn (drawn w + 2 * 1) w)) as (k & r & Hrun & Hk & Hr);
        [by apply well_formed_set_drawn|].
      exists (S k), r. split_and!.
      * rewrite Hrun. f_equal. unfold set_drawn. simpl. f_equal. lia.
      * simpl. lia.
      * destruct Hr as [[-> ->]|(p & -> & Hk1 & Hx & Hy & Hp)]; [by left|].
        right. exists p. split_and!; (done || lia).
Qed.

(** X11: the spawn search always returns, leaves the board as it was,
    and moves the random source on by two raw draws for each candidate
    tried, [max_attempts] candidates at most; what it returns is the
    sentinel [(-1, -1)], after [max_attempts] candidates, or a coordinate
    of the spawn zone whose cell is empty.  With [max_attempts <= 0] it
    returns the sentinel without drawing. *)
Theorem enemy_spawn_location_sound w max_attempts :
  well_formed w →
  ∃ p k, Grid.enemy_spawn_location max_attempts w = Ret p (set_drawn (drawn w + 2 * k) w)
    ∧ (k ≤ Z.to_nat max_attempts)%nat
    ∧ ((p = (-1, -1) ∧ k = Z.to_nat max_attempts)
       ∨ ((1 ≤ k)%nat ∧ 6 ≤ p.1 ≤ 8 ∧ 0 ≤ p.2 ≤ 4 ∧ reads w p None)).
Proof.
  intros Hwf.
  assert (Hlen : length (range 0 max_attempts) = Z.to_nat max_attempts).
  { unfold range. rewrite length_seqZ. f_equal. lia. }
  destruct (spawn_loop_sound (range 0 max_attempts) w Hwf) as (k & r & Hrun & Hk & Hr).
  rewrite Hlen in Hk, Hr.
  unfold Grid.enemy_spawn_location. unfold bind at 1. rewrite Hrun.
  destruct Hr as [[-> ->]|(p & -> & Hk1 & Hx & Hy & Hp)].
  - exists (-1, -1), (Z.to_nat max_attempts). split_and!; [done|done|by left].
  - exists p, k. split_and!; [done|done|].
    right. split_and!; try (done || lia). by apply reads_cell.
Qed.

(** With the raw draws 8, 9, 10, 11 the first candidate is the taken
    corner and the second, [(7, 1)], is free and is returned. *)
Lemma enemy_spawn_location_sound_witness :
  ∃ p k, Grid.enemy_spawn_location 100 (set_drawn 8 Example.corner_taken)
         = Ret p (set_drawn (drawn (set_drawn 8 Example.corner_taken) + 2 * k)
                            (set_drawn 8 Example.corner_taken))
    ∧ p = (7, 1) ∧ k = 2%nat
    ∧ (k ≤ Z.to_nat 100)%nat
    ∧ ((1 ≤ k)%nat ∧ 6 ≤ p.1 ≤ 8 ∧ 0 ≤ p.2 ≤ 4
       ∧ reads (set_drawn 8 Example.corner_taken) p None).
Proof.
  destruct (enemy_spawn_location_sound (set_drawn 8 Example.corner_taken) 100)
    as (p & k & Hrun & Hk & Hcases).
  { split; [reflexivity|]. simpl. repeat constructor. }
  assert (Hgot : Grid.enemy_spawn_location 100 (set_drawn 8 Example.corner_taken)
                 = Ret (7, 1) (set_drawn 12 Example.corner_taken)) by reflexivity.
  rewrite Hgot in Hrun.
  assert (Hp : (7, 1) = p).
  { exact (f_equal (fun r => match r with Ret a _ => a | Raise _ _ => (0, 0) end) Hrun). }
  assert (Hdrawn : 12%nat = (8 + 2 * k)%nat).
  { exact (f_equal (fun r : result (Z * Z) => drawn (world_of r)) Hrun). }
  subst p. assert (Hk2 : k = 2%nat) by lia. subst k.
  exists (7, 1), 2%nat. split; [exact Hgot|]. split; [reflexivity|].
  split; [reflexivity|]. split; [exact Hk|].
  destruct Hcases as [[Hsentinel _]|Hfree]; [discriminate Hsentinel|exact Hfree].
Defined.

(** ** What holds of every board that the mutations reach *)

(** X12: on every world that writes, [add], [remove] and [move] reach
    from a new grid, whether they returned or raised on the way, the
    table is nine rows of five cells, and reading a cell or locating an
    occupant never raises and changes nothing. *)
Theorem reachable_reads_never_raise w :
  reachable w →
  well_formed w
  ∧ (∀ p, ∃ c, Grid.__getitem__ p w = Ret c w)
  ∧ (∀ o, ∃ p, Grid.coordinates o w = Ret p w).
Proof.
  intros Hreach. pose proof (reachable_well_formed w Hreach) as Hwf.
  split_and!; [done| |].
  - intros [x y]. exists (cell w x y). by apply getitem_cell.
  - intros o. destruct (coordinates_spec w o Hwf) as (p & Hrun & _). by exists p.
Qed.

Lemma reachable_reads_never_raise_witness :
  well_formed Example.stored_twice
  ∧ (∀ p, ∃ c, Grid.__getitem__ p Example.stored_twice = Ret c Example.stored_twice)
  ∧ (∀ o, ∃ p, Grid.coordinates o Example.stored_twice = Ret p Example.stored_twice).
Proof.
  apply (reachable_reads_never_raise Example.stored_twice).
  apply (reachable_step _ (Set_item 1 1 (Some 1%nat))).
  apply (reachable_step _ (Add 1%nat)). apply reachable_init.
Defined.

(** ** What the mutations leave alone *)

Lemma setitem_leaves w x y v :
  well_formed w →
  tiles (world_of (Grid.__setitem__ (x, y) v w)) = tiles w
  ∧ fresh (world_of (Grid.__setitem__ (x, y) v w)) = fresh w
  ∧ entropy (world_of (Grid.__setitem__ (x, y) v w)) = entropy w
  ∧ drawn (world_of (Grid.__setitem__ (x, y) v w)) = drawn w
  ∧ ∀ r, v ≠ Some r →
         heap (world_of (Grid.__setitem__ (x, y) v w)) r = heap w r.
Proof.
  intros Hwf.
  destruct (py_index 9 x) as [i|] eqn:Hi; [destruct (py_index 5 y) as [j|] eqn:Hj|].
  - destruct (setitem_returns w x y v i j Hwf Hi Hj)
      as (w' & -> & _ & _ & Htiles & Hheap & Hfresh & Hent & Hdrawn).
    simpl. split_and!; try done.
    intros r Hr. rewrite Hheap. destruct v as [o|]; [|done].
    apply fn_lookup_insert_ne. congruence.
  - by rewrite setitem_raises by auto.
  - by rewrite setitem_raises by auto.
Qed.

(** X13: a write, [add], [remove] or [move], returned or raised, leaves
    [self.tiles] and the random source as they were, and changes the
    attributes of no object other than the occupant it stores; [remove]
    and a write of none change no attribute at all. *)
Theorem mutations_leave_the_rest w m :
  well_formed w →
  tiles (world_of (run m w)) = tiles w
  ∧ entropy (world_of (run m w)) = entropy w
  ∧ drawn (world_of (run m w)) = drawn w
  ∧ ∀ r, match m with
         | Set_item _ _ (Some o) | Add o | Move o _ _ => r ≠ o
         | Set_item _ _ None | Remove _ => True
         end →
         heap (world_of (run m w)) r = heap w r.
Proof.
  intros Hwf. destruct m as [x y v|o|o|o x y]; simpl.
  - destruct (setitem_leaves w x y v Hwf) as (Ht & _ & He & Hd & Hh).
    split_and!; try done. intros r Hr. apply Hh. destruct v; congruence.
  - assert (Hadd : Grid.add o w
        = Grid.__setitem__ (GameObject.x (heap w o), GameObject.y (heap w o)) (Some o) w)
      by done.
    rewrite Hadd.
    destruct (setitem_leaves w (GameObject.x (heap w o)) (GameObject.y (heap w o)) (Some o) Hwf)
      as (Ht & _ & He & Hd & Hh).
    split_and!; try done. intros r Hr. apply Hh. congruence.
  - destruct (coordinates_spec w o Hwf) as (p & Hrun & _).
    unfold Grid.remove, bind. rewrite Hrun.
    destruct (setitem_leaves w p.1 p.2 None Hwf) as (Ht & _ & He & Hd & Hh).
    split_and!; try done. intros r _. by apply Hh.
  - destruct (remove_spec w o Hwf) as (w1 & i & j & Hrm & Hwf1 & _ & Ht1 & Hh1 & _).
    destruct (coordinates_spec w o Hwf) as (p & Hrun & _).
    assert (Hrm' : Grid.remove o w = Grid.__setitem__ (p.1, p.2) None w).
    { unfold Grid.remove, bind. by rewrite Hrun. }
    destruct (setitem_leaves w p.1 p.2 None Hwf) as (_ & _ & He1 & Hd1 & _).
    rewrite <- Hrm', Hrm in He1, Hd1. simpl in He1, Hd1.
    unfold Grid.move, bind. rewrite Hrm.
    destruct (setitem_leaves w1 x y (Some o) Hwf1) as (Ht & _ & He & Hd & Hh).
    split_and!; [congruence..|].
    intros r Hr. rewrite Hh by congruence. by rewrite Hh1.
Qed.

Lemma mutations_leave_the_rest_witness :
  tiles (world_of (run (Move 1%nat 3 3) Example.two_placed)) = tiles Example.two_placed
  ∧ entropy (world_of (run (Move 1%nat 3 3) Example.two_placed)) = entropy Example.two_placed
  ∧ drawn (world_of (run (Move 1%nat 3 3) Example.two_placed)) = drawn Example.two_placed
  ∧ ∀ r, r ≠ 1%nat →
         heap (world_of (run (Move 1%nat 3 3) Example.two_placed)) r
         = heap Example.two_placed r.
Proof.
  apply (mutations_leave_the_rest Example.two_placed (Move 1%nat 3 3)).
  split; [reflexivity|]. simpl. repeat constructor.
Defined.

(** ** Looking a tile up *)

(** X14: [get_tile] never raises and changes nothing; it answers none
    exactly when no tile of [self.tiles] reports the coordinate asked
    for, and otherwise the first tile of [self.tiles] that does. *)
Theorem get_tile_first w x y :
  ∃ r, Grid.get_tile x y w = Ret r w
    ∧ (r = None ↔ ∀ tile, tile ∈ tiles w → position_of w tile ≠ (x, y))
    ∧ (∀ tile, r = Some tile →
         ∃ before after, tiles w = before ++ tile :: after
           ∧ position_of w tile = (x, y)
           ∧ ∀ t, t ∈ before → position_of w t ≠ (x, y)).
Proof.
  unfold Grid.get_tile, gets. eexists. split; [reflexivity|].
  set (f := fun tile => bool_decide (GameObject.x (heap w tile) = x)
                        && bool_decide (GameObject.y (heap w tile) = y)).
  assert (Hf : ∀ t, f t = true ↔ position_of w t = (x, y)).
  { intros t. unfold f, position_of.
    rewrite andb_true_iff, !bool_decide_eq_true. split; [by intros [-> ->]|by intros [= -> ->]]. }
  induction (tiles w) as [|t l [IHnone IHsome]]; simpl.
  - split; [split; [|done]|done]. intros _ t Ht. by apply elem_of_nil in Ht.
  - destruct (f t) eqn:Hft.
    + split.
      * split; [done|]. intros Hno. destruct (Hno t (list_elem_of_here _ _)). by apply Hf.
      * intros tile [= <-]. exists [], l. split_and!; [done|by apply Hf|].
        intros t' Ht'. by apply elem_of_nil in Ht'.
    + assert (Hnt : position_of w t ≠ (x, y)).
      { intros Hpos. apply Hf in Hpos. congruence. }
      split.
      * rewrite IHnone. split.
        -- intros Hno t' Ht'. apply elem_of_cons in Ht' as [->|Ht']; auto.
        -- intros Hno t' Ht'. apply Hno. by apply list_elem_of_further.
      * intros tile Htile. destruct (IHsome tile Htile) as (before & after & -> & Hpos & Hbefore).
        exists (t :: before), after. split_and!; [done..|].
        intros t' Ht'. apply elem_of_cons in Ht' as [->|Ht']; auto.
Qed.

Lemma get_tile_first_witness :
  ∃ r, Grid.get_tile 3 2 Example.tiled = Ret r Example.tiled
    ∧ (r = None ↔ ∀ tile, tile ∈ tiles Example.tiled → position_of Example.tiled tile ≠ (3, 2))
    ∧ (∀ tile, r = Some tile →
         ∃ before after, tiles Example.tiled = before ++ tile :: after
           ∧ position_of Example.tiled tile = (3, 2)
           ∧ ∀ t, t ∈ before → position_of Example.tiled t ≠ (3, 2)).
Proof. apply (get_tile_first Example.tiled 3 2). Defined.

(** ** The occupants around a coordinate *)

Lemma object_at w t x y :
  well_formed w → position_of w t = (x, y) →
  (let* tx := gets (fun w => GameObject.x (heap w t)) in
   let* ty := gets (fun w => GameObject.y (heap w t)) in
   let* object := Grid.__getitem__ (tx, ty) in
   match object with
   | Some o => ret ([o], None)
   | None => ret ([], None)
   end) w
  = Ret (match cell w x y with Some o => [o] | None => [] end,
         @None attribute_exn) w.
Proof.
  intros Hwf [= Hx Hy]. unfold bind, gets. rewrite Hx, Hy, getitem_cell by done.
  by destruct (cell w x y).
Qed.

Lemma objects_run w (l : list (Z * Z)) :
  well_formed w → tiles_cover w →
  (∀ p, p ∈ l → Grid.is_valid p.1 p.2 = true) →
  for_yield_until
    ((fun p : Z * Z =>
        find (fun tile => bool_decide (GameObject.x (heap w tile) = p.1)
                          && bool_decide (GameObject.y (heap w tile) = p.2))
             (tiles w)) <$> l)
    (fun tile =>
       match tile with
       | None => ret ([], Some AttributeError)
       | Some t =>
           let* tx := gets (fun w => GameObject.x (heap w t)) in
           let* ty := gets (fun w => GameObject.y (heap w t)) in
           let* object := Grid.__getitem__ (tx, ty) in
           match object with
           | Some o => ret ([o], None)
           | None => ret ([], None)
           end
       end) w
  = Ret (omap (fun p : Z * Z => cell w p.1 p.2) l, None) w.
Proof.
  intros Hwf Hcover.
  set (g := fun p : Z * Z =>
        find (fun tile => bool_decide (GameObject.x (heap w tile) = p.1)
                          && bool_decide (GameObject.y (heap w tile) = p.2))
             (tiles w)).
  induction l as [|[x y] l IH]; intros Hvalid; [done|].
  rewrite fmap_cons. cbn [for_yield_until].
  destruct (Hcover x y (Hvalid (x, y) (list_elem_of_here _ _))) as (t & Ht).
  pose proof (get_tile_position w x y t Ht) as Hpos.
  assert (Hg : g (x, y) = Some t).
  { unfold Grid.get_tile, gets in Ht. by injection Ht. }
  unfold bind at 1. rewrite Hg. cbv beta iota.
  rewrite (object_at w t x y Hwf Hpos). cbv beta iota delta [fst snd].
  unfold bind at 1.
  rewrite IH by (intros p Hp; apply Hvalid; by apply list_elem_of_further).
  cbn [omap list_omap fst snd]. unfold ret.
  by destruct (cell w x y).
Qed.

Lemma occupied_cells w (l : list (Z * Z)) :
  ∃ cs, Forall2 (fun p o => cell w p.1 p.2 = Some o) cs
                (omap (fun p : Z * Z => cell w p.1 p.2) l)
    ∧ (∀ p, p ∈ cs ↔ p ∈ l ∧ ∃ o, cell w p.1 p.2 = Some o)
    ∧ (StronglySorted row_major l → StronglySorted row_major cs).
Proof.
  induction l as [|a l (cs & Hpairs & Hmem & Hsorted)].
  - exists []. split_and!; [constructor| |done].
    intros p. split; [intros Hp|intros [Hp _]]; by apply elem_of_nil in Hp.
  - simpl. destruct (cell w a.1 a.2) as [o|] eqn:Ha.
    + exists (a :: cs). split_and!.
      * by constructor.
      * intros p. rewrite !elem_of_cons, Hmem. split.
        -- intros [->|[? ?]]; [split; [by left|by exists o]|split; [by right|done]].
        -- intros [[->|?] ?]; [by left|by right].
      * intros Hl. apply StronglySorted_cons in Hl as [Hall Hl].
        apply StronglySorted_cons. split; [|by apply Hsorted].
        apply Forall_forall. intros p Hp. apply Hmem in Hp as [Hp _].
        rewrite Forall_forall in Hall. by apply Hall.
    + exists cs. split_and!; [done| |].
      * intros p. rewrite elem_of_cons, Hmem. split.
        -- intros [? ?]. split; [by right|done].
        -- intros [[->|?] [o Ho]]; [congruence|]. split; [done|by exists o].
      * intros Hl. apply StronglySorted_cons in Hl as [_ Hl]. by apply Hsorted.
Qed.

(** X15: on a board whose tiles cover the grid, [surrounding_objects]
    never fails and changes nothing; it yields the occupants of the
    occupied cells of the square around the center that are valid and are
    not the center, one per such cell, in row-major order of the cells
    ([x] outer, [y] inner). *)
Theorem surrounding_objects_occupants w cx cy d :
  well_formed w → tiles_cover w →
  ∃ cs os, Grid.surrounding_objects cx cy d w = Ret (os, None) w
    ∧ Forall2 (fun p o => reads w p (Some o) ∧ stored w p.1 p.2 (Some o)) cs os
    ∧ StronglySorted row_major cs
    ∧ (∀ x y, (x, y) ∈ cs ↔
              cx - d ≤ x ≤ cx + d ∧ cy - d ≤ y ≤ cy + d
              ∧ (0 ≤ x ≤ 8 ∧ 0 ≤ y ≤ 4) ∧ (x, y) ≠ (cx, cy)
              ∧ ∃ o, reads w (x, y) (Some o) ∧ stored w x y (Some o)).
Proof.
  intros Hwf Hcover.
  destruct (occupied_cells w (ring cx cy d)) as (cs & Hpairs & Hmem & Hsorted).
  exists cs, (omap (fun p : Z * Z => cell w p.1 p.2) (ring cx cy d)). split_and!.
  - unfold Grid.surrounding_objects. unfold bind at 1.
    rewrite surrounding_tiles_run. apply objects_run; [done..|].
    intros [x y] Hp. apply elem_of_ring in Hp. apply is_valid_spec. simpl. lia.
  - eapply Forall2_impl; [exact Hpairs|]. intros p o Hp.
    split; [by apply reads_cell|by apply stored_Some_cell].
  - apply Hsorted, ring_sorted.
  - intros x y. rewrite Hmem, elem_of_ring. simpl. split.
    + intros ((Hx & Hy & Hv & Hne) & o & Ho). split_and!; try lia; [done|].
      exists o. split; [by apply reads_cell|by apply stored_Some_cell].
    + intros (Hx & Hy & Hv & Hne & o & Ho & _). split; [done|].
      exists o. by apply reads_cell in Ho.
Qed.

Lemma tiled_two_placed_well_formed : well_formed Example.tiled_two_placed.
Proof. split; [vm_compute; reflexivity|]. vm_compute. repeat constructor. Qed.

Lemma tiled_two_placed_tiles_cover : tiles_cover Example.tiled_two_placed.
Proof.
  intros x y Hv. apply is_valid_spec in Hv as [Hx Hy].
  assert (Hxs : x = 0 ∨ x = 1 ∨ x = 2 ∨ x = 3 ∨ x = 4 ∨ x = 5 ∨ x = 6 ∨ x = 7 ∨ x = 8) by lia.
  assert (Hys : y = 0 ∨ y = 1 ∨ y = 2 ∨ y = 3 ∨ y = 4) by lia.
  exists (100 + Z.to_nat (5 * x + y))%nat. unfold Grid.get_tile, gets. f_equal.
  destruct Hxs as [->|[->|[->|[->|[->|[->|[->|[->| ->]]]]]]]];
    destruct Hys as [->|[->|[->|[->| ->]]]]; vm_compute; reflexivity.
Qed.

Lemma surrounding_objects_occupants_witness :
  ∃ cs os, Grid.surrounding_objects 4 1 1 Example.tiled_two_placed
           = Ret (os, None) Example.tiled_two_placed
    ∧ Forall2 (fun p o => reads Example.tiled_two_placed p (Some o)
                          ∧ stored Example.tiled_two_placed p.1 p.2 (Some o)) cs os
    ∧ StronglySorted row_major cs
    ∧ (∀ x y, (x, y) ∈ cs ↔
              4 - 1 ≤ x ≤ 4 + 1 ∧ 1 - 1 ≤ y ≤ 1 + 1
              ∧ (0 ≤ x ≤ 8 ∧ 0 ≤ y ≤ 4) ∧ (x, y) ≠ (4, 1)
              ∧ ∃ o, reads Example.tiled_two_placed (x, y) (Some o)
                     ∧ stored Example.tiled_two_placed x y (Some o)).
Proof.
  apply (surrounding_objects_occupants Example.tiled_two_placed 4 1 1).
  - exact tiled_two_placed_well_formed.
  - exact tiled_two_placed_tiles_cover.
Defined.

(** The two occupants of [tiled_two_placed] are yielded around [(4, 1)],
    the one at [(3, 2)] before the one at [(4, 2)]. *)
Example surrounding_objects_around_4_1 :
  returned (Grid.surrounding_objects 4 1 1 Example.tiled_two_placed)
  = Some ([50%nat; 51%nat], None).
Proof. vm_compute. reflexivity. Qed.

(** X16: before [initialize_tiles], with [self.tiles] empty,
    [surrounding_objects] fails with [AttributeError] before yielding
    anything, whenever the square around the center has a valid
    coordinate other than the center; when it has none, nothing is
    yielded and nothing fails.  The world is left as it was. *)
Theorem surrounding_objects_without_tiles w cx cy d :
  tiles w = [] →
  ((∃ x y, cx - d ≤ x ≤ cx + d ∧ cy - d ≤ y ≤ cy + d
           ∧ (0 ≤ x ≤ 8 ∧ 0 ≤ y ≤ 4) ∧ (x, y) ≠ (cx, cy)) →
   Grid.surrounding_objects cx cy d w = Ret ([], Some AttributeError) w)
  ∧ ((∀ x y, ¬ (cx - d ≤ x ≤ cx + d ∧ cy - d ≤ y ≤ cy + d
                ∧ (0 ≤ x ≤ 8 ∧ 0 ≤ y ≤ 4) ∧ (x, y) ≠ (cx, cy))) →
     Grid.surrounding_objects cx cy d w = Ret ([], None) w).
Proof.
  intros Htiles.
  assert (Hrun : Grid.surrounding_tiles cx cy d w
                 = Ret ((fun _ => None) <$> ring cx cy d) w).
  { rewrite surrounding_tiles_run. by rewrite Htiles. }
  assert (Hobj : Grid.surrounding_objects cx cy d w
                 = Ret (match ring cx cy d with
                        | [] => ([], None)
                        | _ :: _ => ([], Some AttributeError)
                        end) w).
  { unfold Grid.surrounding_objects. unfold bind at 1. rewrite Hrun.
    by destruct (ring cx cy d). }
  rewrite Hobj. destruct (ring cx cy d) as [|p l] eqn:Hring.
  - split; [|done]. intros (x & y & Hxy).
    apply elem_of_ring in Hxy. rewrite Hring in Hxy. by apply elem_of_nil in Hxy.
  - split; [done|]. intros Hnone. destruct p as [x y].
    destruct (Hnone x y). apply elem_of_ring. rewrite Hring. apply list_elem_of_here.
Qed.

Lemma surrounding_objects_without_tiles_witness :
  Grid.surrounding_objects 4 2 1 Example.one_placed
  = Ret ([], Some AttributeError) Example.one_placed.
Proof.
  apply (surrounding_objects_without_tiles Example.one_placed 4 2 1); [reflexivity|].
  exists 3, 1. split_and!; (lia || discriminate).
Defined.

(** ** Setting the tiles up *)









(** The occupant of [one_placed] is an object that exists, and setting
    the tiles up leaves it where it reports to be. *)
Example initialize_tiles_keeps_occupant :
  (1 < fresh Example.one_placed)%nat
  ∧ position_of (world_of (Grid.initialize_tiles Example.one_placed)) 1%nat = (0, 0)
  ∧ returned (Grid.coordinates 1%nat (world_of (Grid.initialize_tiles Example.one_placed)))
    = Some (0, 0)
  ∧ returned (Grid.get_tile 0 0 (world_of (Grid.initialize_tiles Example.one_placed)))
    = Some (Some 100%nat).
Proof. split_and!; vm_compute; (lia || reflexivity). Qed.

(** ** A new grid *)

Lemma init_cells_empty w x y : cell (Grid.__init__ w) x y = None.
Proof.
  unfold cell. destruct (Grid.is_valid x y) eqn:Hv; [|done].
  apply is_valid_spec in Hv.
  assert (Hrow : ∃ i, (i < 9)%nat ∧ Z.to_nat x = i) by (exists (Z.to_nat x); lia).
  assert (Hcol : ∃ j, (j < 5)%nat ∧ Z.to_nat y = j) by (exists (Z.to_nat y); lia).
  destruct Hrow as (i & Hi & ->), Hcol as (j & Hj & ->).
  do 9 (destruct i as [|i]; [do 5 (destruct j as [|j]; [done|]); lia|]). lia.
Qed.

(** X18: a new grid is empty: every coordinate reads none, [can_move]
    answers true at every valid coordinate, [coordinates] answers the
    sentinel [(-1, -1)] for every object, there is no tile, and no
    occupant is stored twice. *)
Theorem new_grid_is_empty w :
  (∀ p, reads (Grid.__init__ w) p None)
  ∧ (∀ x y, 0 ≤ x ≤ 8 → 0 ≤ y ≤ 4 →
            Grid.can_move x y (Grid.__init__ w) = Ret true (Grid.__init__ w))
  ∧ (∀ o, Grid.coordinates o (Grid.__init__ w) = Ret (-1, -1) (Grid.__init__ w))
  ∧ tiles (Grid.__init__ w) = []
  ∧ at_most_one_cell (Grid.__init__ w).
Proof.
  pose proof (well_formed_init w) as Hwf. split_and!.
  - intros [x y]. apply reads_cell; [done|]. apply init_cells_empty.
  - intros x y Hx Hy. rewrite can_move_run by done.
    rewrite init_cells_empty, (proj2 (is_valid_spec x y)) by lia. done.
  - intros o. apply coordinates_absent; [done|]. intros x y.
    by rewrite init_cells_empty.
  - done.
  - apply at_most_one_cells; [done|]. intros o a b a' b' Hab.
    by rewrite init_cells_empty in Hab.
Qed.

Lemma new_grid_is_empty_witness :
  Grid.can_move 3 2 Example.blank = Ret true Example.blank.
Proof.
  apply (new_grid_is_empty
           (mkWorld [] [] (fun _ => GameObject.make 0 0 2) 100%nat (fun n => n) 0%nat)); lia.
Defined.
